(** * pdf_to_json: a shallow embedding of [src/pdf_to_json.py]

    The development follows the source top-down: the Python built-ins the
    program relies on ([round], [str.strip], [str.split], [str.isupper],
    [str.isdigit], [max], [sorted]), the data model (characters, images,
    grids, content entries), the helper functions ([identify_text_role],
    [is_number_line], [deduplicate_charts], [extract_tables_with_camelot]),
    the per-page loop of [parse_pdf], and [main].

    Numbers.  A finite Python [float] is a dyadic rational, and [round] and
    the comparisons used by [sorted] are exact on it, so positions and font
    sizes are modelled as rationals ([Q]); Python [int]s are [Z].

    Text.  A Python [str] is a sequence of Unicode code points: [str] is
    the list of its code points, and [len] is its length.  What [str.isspace],
    [str.isdigit], [str.isupper], [str.islower] and [str.istitle] answer
    for a code point is read from the Unicode character database, which
    is not part of the program: it is a parameter ([Py.Unicode]), of which
    the development uses the ASCII rows and the fact that no digit is an
    uppercase letter. *)

From Stdlib Require Import ZArith NArith QArith Qround String Ascii List Lia.
From Stdlib Require Import Permutation Sorted DecimalString.
From stdpp Require Import base option list gmap strings.

Local Open Scope Z_scope.
Local Open Scope string_scope.
Local Open Scope list_scope.

(** ** Strings *)

(** A [str]: its code points. *)
Definition str := list N.

(** [ord(c)] for an ASCII character, and the [str] written as an ASCII
    literal. *)
Definition ord (c : ascii) : N := N_of_ascii c.
Definition lit (s : string) : str := map ord (list_ascii_of_string s).

(** The character classes on the ASCII range U+0000..U+007F. *)
Module Ascii7.

(** TAB, LF, VT, FF, CR, FS, GS, RS, US, SPACE. *)
Definition isspace (c : N) : bool :=
  ((9 <=? c) && (c <=? 13) || (28 <=? c) && (c <=? 32))%N.

Definition isdigit (c : N) : bool := ((48 <=? c) && (c <=? 57))%N.

Definition isupper (c : N) : bool := ((65 <=? c) && (c <=? 90))%N.

Definition islower (c : N) : bool := ((97 <=? c) && (c <=? 122))%N.

End Ascii7.

(** ** Python built-ins *)

Module Py.

(** The rows of the Unicode character database behind [c.isspace()],
    [c.isdigit()], [c.isupper()], [c.islower()] and [c.istitle()] for a
    one-character [c], with what the development relies on: their values
    on ASCII, where no character is titlecase, and that no character is
    both a digit and uppercase (a character whose Numeric_Type is Digit
    or Decimal is not a cased one). *)
Class Unicode : Type := {
  isspace_ch : N -> bool;
  isdigit_ch : N -> bool;
  isupper_ch : N -> bool;
  islower_ch : N -> bool;
  istitle_ch : N -> bool;
  isspace_ascii : forall c, (c < 128)%N -> isspace_ch c = Ascii7.isspace c;
  isdigit_ascii : forall c, (c < 128)%N -> isdigit_ch c = Ascii7.isdigit c;
  isupper_ascii : forall c, (c < 128)%N -> isupper_ch c = Ascii7.isupper c;
  islower_ascii : forall c, (c < 128)%N -> islower_ch c = Ascii7.islower c;
  istitle_ascii : forall c, (c < 128)%N -> istitle_ch c = false;
  digit_not_upper : forall c, isdigit_ch c = true -> isupper_ch c = false
}.

(** [round(x)]: nearest integer, ties to the even one. *)
Definition round (x : Q) : Z :=
  let f := Qfloor x in
  match Qcompare (x - inject_Z f) (1 # 2) with
  | Lt => f
  | Gt => f + 1
  | Eq => if Z.even f then f else f + 1
  end.

(** [round(x, 1)]: the nearest multiple of one tenth, ties to even.  The
    float Python returns is the one nearest to [k/10]; it is represented
    here by the integer [k], which is what equality and hashing of the
    rounded value depend on. *)
Definition round1 (x : Q) : Z := round (x * (10 # 1)).

Fixpoint all_ch (p : N -> bool) (s : str) : bool :=
  match s with
  | [] => true
  | c :: r => p c && all_ch p r
  end.

Fixpoint any_ch (p : N -> bool) (s : str) : bool :=
  match s with
  | [] => false
  | c :: r => p c || any_ch p r
  end.

(** Truthiness of a string: [bool(s)]. *)
Definition truthy (s : str) : bool :=
  match s with [] => false | _ :: _ => true end.

(** [s.replace(c, "")] for a one-character ASCII literal [c]. *)
Fixpoint remove_ch (c : ascii) (s : str) : str :=
  match s with
  | [] => []
  | d :: r => if N.eqb d (ord c) then remove_ch c r else d :: remove_ch c r
  end.

(** ["".join(l)] *)
Definition join (l : list str) : str := fold_right (@app N) [] l.

(** [s.isascii()] *)
Definition isascii (s : str) : bool := forallb (fun c => (c <? 128)%N) s.

Section Str.
Context `{U : Unicode}.

(** [s.isdigit()]: at least one character, and every character a digit. *)
Definition isdigit (s : str) : bool := truthy s && all_ch isdigit_ch s.

(** [s.isupper()]: all cased characters are uppercase and there is at
    least one, that is, no character is lowercase or titlecase and some
    character is uppercase (uncased characters such as digits and blanks
    are passed over). *)
Definition isupper (s : str) : bool :=
  negb (any_ch (fun c => islower_ch c || istitle_ch c) s) && any_ch isupper_ch s.

Fixpoint lstrip (s : str) : str :=
  match s with
  | [] => []
  | c :: r => if isspace_ch c then lstrip r else s
  end.

Fixpoint rstrip (s : str) : str :=
  match s with
  | [] => []
  | c :: r =>
      match rstrip r with
      | [] => if isspace_ch c then [] else [c]
      | r' => c :: r'
      end
  end.

(** [s.strip()] *)
Definition strip (s : str) : str := rstrip (lstrip s).

(** [s.split()]: the maximal runs of non-blank characters.  [cur] is the
    word being read, most recent character first. *)
Fixpoint split_from (cur : list N) (s : str) : list str :=
  let flush (rest : list str) :=
    match cur with
    | [] => rest
    | _ => rev cur :: rest
    end in
  match s with
  | [] => flush []
  | c :: r =>
      if isspace_ch c then flush (split_from [] r) else split_from (c :: cur) r
  end.

Definition split (s : str) : list str := split_from [] s.
End Str.

(** [max(l, key=key)] on a non-empty iterable whose first item is [best]:
    the first item whose key is maximal. *)
Fixpoint max_from {A} (key : A -> nat) (best : A) (l : list A) : A :=
  match l with
  | [] => best
  | x :: r => if (key best <? key x)%nat then max_from key x r else max_from key best r
  end.

Definition max_by {A} (key : A -> nat) (l : list A) : option A :=
  match l with
  | [] => None
  | x :: r => Some (max_from key x r)
  end.

(** [sorted(l, key=key)].  Python guarantees that [sorted] is stable and
    it compares keys with [<] only; on a total order the result of a
    stable sort is unique, and it is computed here by insertion: an item
    is placed before the first item of the sorted tail whose key is not
    smaller than its own. *)
Section Sorted.
Context {A K : Type} (ltb : K -> K -> bool) (key : A -> K).

Fixpoint insert_sorted (x : A) (l : list A) : list A :=
  match l with
  | [] => [x]
  | y :: r =>
      if ltb (key y) (key x) then y :: insert_sorted x r else x :: l
  end.

Definition sorted (l : list A) : list A := fold_right insert_sorted [] l.
End Sorted.

Definition Qltb (a b : Q) : bool := negb (Qle_bool b a).

(** The database cut down to its ASCII rows: no character above U+007F
    is in any class.  On text that is ASCII it answers as every database
    does, which makes it the one to compute with on concrete lines. *)
Program Definition ascii_only : Unicode := {|
  isspace_ch := Ascii7.isspace;
  isdigit_ch := Ascii7.isdigit;
  isupper_ch := Ascii7.isupper;
  islower_ch := Ascii7.islower;
  istitle_ch := fun _ => false
|}.
Next Obligation. intros c _. reflexivity. Qed.
Next Obligation. intros c _. reflexivity. Qed.
Next Obligation. intros c _. reflexivity. Qed.
Next Obligation. intros c _. reflexivity. Qed.
Next Obligation. intros c _. reflexivity. Qed.
Next Obligation.
  intros c. unfold Ascii7.isdigit, Ascii7.isupper. intros H.
  apply andb_true_iff in H as [_ H]. apply N.leb_le in H.
  apply andb_false_iff. left. apply N.leb_gt. lia.
Qed.

End Py.

(** ** Data model *)

(** A character of [page.chars]: the keys ["text"], ["top"], ["size"]. *)
Module Char.
Record t := mk { text : str; top : Q; size : Q }.
End Char.

(** An image of [page.images]: the keys ["x0"], ["top"], ["x1"], ["bottom"]. *)
Module Image.
Record t := mk { x0 : Q; top : Q; x1 : Q; bottom : Q }.
End Image.

(** A raw table: rows of cells; a cell is a string or [None]. *)
Definition Cell := option str.
Definition Grid := list (list Cell).

Definition BBox := (Q * Q * Q * Q)%type.

(** The strings returned by [identify_text_role]. *)
Inductive Role := RoleSection | RoleSubSection | RoleParagraph.

(** The value of an entry's ["type"] key. *)
Inductive EntryType := TParagraph | TTable | TChart.

#[global] Instance EntryType_eq_dec : EqDecision EntryType.
Proof. solve_decision. Defined.

#[global] Instance Role_eq_dec : EqDecision Role.
Proof. solve_decision. Defined.

(** The three dict literals of [parse_pdf], one record each.  The keys a
    literal binds to the constant [None] (["description"] and ["top"] of a
    table, ["table_data"] of a chart) carry no data and are read back by
    the accessors of [Entry]. *)
Module Paragraph.
Record t := mk {
  section : option str;
  sub_section : option str;
  text : str;
  top : Z
}.
End Paragraph.

Module Table.
Record t := mk {
  section : option str;
  sub_section : option str;
  table_data : Grid
}.
End Table.

Module Chart.
Record t := mk {
  section : option str;
  sub_section : option str;
  description : str;
  bbox : BBox;
  top : Q
}.
End Chart.

(** An item of [page_content]: a dict discriminated by its ["type"]. *)
Inductive Entry := EParagraph (p : Paragraph.t) | ETable (t : Table.t) | EChart (c : Chart.t).

Module Entry.
Definition type (e : Entry) : EntryType :=
  match e with EParagraph _ => TParagraph | ETable _ => TTable | EChart _ => TChart end.

Definition section (e : Entry) : option str :=
  match e with
  | EParagraph p => Paragraph.section p
  | ETable t => Table.section t
  | EChart c => Chart.section c
  end.

Definition sub_section (e : Entry) : option str :=
  match e with
  | EParagraph p => Paragraph.sub_section p
  | ETable t => Table.sub_section t
  | EChart c => Chart.sub_section c
  end.

Definition text (e : Entry) : option str :=
  match e with EParagraph p => Some (Paragraph.text p) | _ => None end.

(** [x.get("top")] when it is an [int] or a [float], else [None]. *)
Definition top (e : Entry) : option Q :=
  match e with
  | EParagraph p => Some (inject_Z (Paragraph.top p))
  | ETable _ => None
  | EChart c => Some (Chart.top c)
  end.

(** [e["text"] += s].  Only paragraph dicts have the key; the statement
    is only ever run on one (see [process_lines_invariant]). *)
Definition append_text (s : str) (e : Entry) : Entry :=
  match e with
  | EParagraph p =>
      EParagraph (Paragraph.mk (Paragraph.section p) (Paragraph.sub_section p)
                               (Paragraph.text p ++ s) (Paragraph.top p))
  | _ => e
  end.
End Entry.

(** ** Insertion-ordered dictionaries

    A Python [dict] keeps its keys in insertion order, and both [max] over a
    dict and [sorted(d.items())] read them in that order, so the
    [defaultdict]s of the program are association lists. *)
Section Dict.
Context {V : Type}.

Definition Dict := list (Z * V).

Fixpoint dict_get (d : Dict) (k : Z) : option V :=
  match d with
  | [] => None
  | (k', v) :: r => if Z.eqb k' k then Some v else dict_get r k
  end.

(** [d[k] = f(d[k])] on a [defaultdict] whose factory yields [dflt]: a
    present key keeps its place, a new key goes last. *)
Fixpoint dict_update (dflt : V) (f : V -> V) (k : Z) (d : Dict) : Dict :=
  match d with
  | [] => [(k, f dflt)]
  | (k', v) :: r =>
      if Z.eqb k' k then (k', f v) :: r else (k', v) :: dict_update dflt f k r
  end.

Definition dict_keys (d : Dict) : list Z := map fst d.
End Dict.
Arguments Dict : clear implicits.

(** ** The environment of [parse_pdf] and [main] *)

(** Exceptions (all of class [Exception]), with their message. *)
Inductive Exn :=
| FileNotFoundError (msg : str)
| OtherException (msg : str).

(** [str(e)] *)
Definition exn_str (e : Exn) : str :=
  match e with FileNotFoundError m => m | OtherException m => m end.

(** A page of [pdf.pages]: its characters, its images and what its
    [extract_tables()] returns. *)
Module PdfPage.
Record t := mk {
  chars : list Char.t;
  images : list Image.t;
  extract_tables : list Grid
}.
End PdfPage.

(** A page of the result: [{"page_number": ..., "content": ...}]; the
    document [{"pages": [...]}] is the list of its pages. *)
Module Page.
Record t := mk { page_number : Z; content : list Entry }.
End Page.
Definition Document := list Page.t.

(** What the program meets outside itself: the file system, pdfplumber,
    the optional camelot module ([None] when the import failed) and the
    output file.  The try block of [extract_tables_with_camelot] either
    raises or yields the [data] of the tables read; [open(path, "w")]
    either raises or creates (or empties) the file; the body of the
    [with], [json.dump] and the closing of the file, either raises,
    leaving in the file whatever was written, or completes. *)
Module World.
Record t := mk {
  path_exists : str -> bool;
  pdfplumber_open : str -> Exn + list PdfPage.t;
  camelot : option (str -> Z -> Exn + list Grid);
  open_output : str -> Exn + unit;
  json_dump : str -> Document -> Exn + unit
}.
End World.

(** The external calls, in the order the program makes them. *)
Inductive Event :=
| EvExists (path : str)
| EvOpen (path : str)
| EvPage (page_num : Z)
| EvCamelot (path : str) (page_num : Z)
| EvExtractTables (page_num : Z)
| EvPrint (msg : str)
| EvOpenOutput (path : str)
| EvJsonDump (path : str) (doc : Document).

(** Computations: the trace of external calls, and an exception or a value. *)
Definition M (A : Type) : Type := (list Event * (Exn + A))%type.

Definition ret {A} (x : A) : M A := ([], inr x).
Definition raise {A} (e : Exn) : M A := ([], inl e).
Definition emit (ev : Event) : M unit := ([ev], inr tt).
Definition lift {A} (r : Exn + A) : M A := ([], r).

Definition bind {A B} (m : M A) (f : A -> M B) : M B :=
  match m with
  | (t, inl e) => (t, inl e)
  | (t, inr a) => let '(t', r) := f a in (t ++ t', r)
  end.

(** [try: m except Exception as e: h(e)] *)
Definition try_except {A} (m : M A) (h : Exn -> M A) : M A :=
  match m with
  | (t, inl e) => let '(t', r) := h e in (t ++ t', r)
  | (t, inr a) => (t, inr a)
  end.

Notation "'let*' x ':=' m 'in' k" := (bind m (fun x => k))
  (at level 10, x name, m at level 100, k at level 200).

Definition trace {A} (m : M A) : list Event := fst m.
Definition outcome {A} (m : M A) : Exn + A := snd m.

(** The variables the line loop of [parse_pdf] updates.  [previous_entry]
    aliases a dict of [page_content]: it is the position of that dict in
    the list. *)
Module LoopState.
Record t := mk {
  page_content : list Entry;
  current_section : option str;
  current_sub_section : option str;
  previous_entry : option nat
}.

Definition init : t := mk [] None None None.
End LoopState.

(** ** [identify_text_role] *)

Definition SECTION_FONT_SIZE : Z := 14.
Definition SUBSECTION_FONT_SIZE : Z := 12.

(** The rounded font size of a character: [round(ch["size"])]. *)
Definition rounded_size (ch : Char.t) : Z := Py.round (Char.size ch).

(** The loop [for ch in chars: font_sizes[round(ch["size"])] += 1]. *)
Definition font_sizes (chars : list Char.t) : Dict nat :=
  fold_left (fun d ch => dict_update 0%nat S (rounded_size ch) d) chars [].

(** [font_sizes.get], the key function of [max]. *)
Definition font_sizes_get (d : Dict nat) (k : Z) : nat :=
  match dict_get d k with Some n => n | None => 0%nat end.

(** [max(font_sizes, key=font_sizes.get)]; [None] stands for the
    [ValueError] that [max] raises on an empty dict. *)
Definition dominant_size (chars : list Char.t) : option Z :=
  let d := font_sizes chars in
  Py.max_by (font_sizes_get d) (dict_keys d).

Definition role_of_size (dominant : Z) : Role :=
  if (SECTION_FONT_SIZE <=? dominant)%Z then RoleSection
  else if (SUBSECTION_FONT_SIZE <=? dominant)%Z then RoleSubSection
  else RoleParagraph.

Definition identify_text_role (chars : list Char.t) : Role :=
  match chars with
  | [] => RoleParagraph
  | _ :: _ =>
      match dominant_size chars with
      | Some dominant => role_of_size dominant
      | None => RoleParagraph (* not reached: see [dominant_size_is_Some] *)
      end
  end.

(** ** [deduplicate_charts] *)

Definition BBoxKey := (Z * Z * Z * Z)%type.

(** [tuple(round(v, 1) for v in ch["bbox"])] *)
Definition rounded_bbox (ch : Chart.t) : BBoxKey :=
  let '(a, b, c, d) := Chart.bbox ch in
  (Py.round1 a, Py.round1 b, Py.round1 c, Py.round1 d).

(** The loop of [deduplicate_charts], run from the set [seen]; the result
    is what the loop appends to [unique]. *)
Fixpoint deduplicate_from (seen : gset BBoxKey) (charts : list Chart.t)
  : list Chart.t :=
  match charts with
  | [] => []
  | ch :: rest =>
      let bbox := rounded_bbox ch in
      if decide (bbox ∈ seen) then deduplicate_from seen rest
      else ch :: deduplicate_from ({[bbox]} ∪ seen) rest
  end.

Definition deduplicate_charts (charts : list Chart.t) : list Chart.t :=
  deduplicate_from ∅ charts.

(** ** [extract_tables_with_camelot] *)

Definition extract_tables_with_camelot (w : World.t) (pdf_path : str)
  (page_number : Z) : M (list Grid) :=
  match World.camelot w with
  | None => ret []
  | Some read_pdf =>
      try_except
        (let* _ := emit (EvCamelot pdf_path page_number) in
         lift (read_pdf pdf_path page_number))
        (fun _ => ret [])
  end.

(** ** Tables and charts of a page *)

(** Truthiness of a cell: a non-empty string. *)
Definition cell_truthy (cell : Cell) : bool :=
  match cell with Some s => Py.truthy s | None => false end.

(** [tbl and any(any(cell for cell in row) for row in tbl)] *)
Definition grid_accepted (tbl : Grid) : bool :=
  match tbl with
  | [] => false
  | _ :: _ => existsb (fun row => existsb cell_truthy row) tbl
  end.

Definition table_entry (sec sub : option str) (tbl : Grid) : Entry :=
  ETable (Table.mk sec sub tbl).

(** The two table loops; [page.extract_tables()] is called only under
    [if not camelot_tables]. *)
Definition table_entries (w : World.t) (pdf_path : str) (page_num : Z)
  (page : PdfPage.t) (sec sub : option str) : M (list Entry) :=
  let* camelot_tables := extract_tables_with_camelot w pdf_path page_num in
  let from_camelot := map (table_entry sec sub) camelot_tables in
  match camelot_tables with
  | [] =>
      let* _ := emit (EvExtractTables page_num) in
      ret (from_camelot
           ++ map (table_entry sec sub)
                  (List.filter grid_accepted (PdfPage.extract_tables page)))
  | _ :: _ => ret from_camelot
  end.

(** [str(n)] for the page numbers, which are positive. *)
Definition str_of_Z (n : Z) : str :=
  lit (DecimalString.NilZero.string_of_int (Z.to_int n)).

(** The chart dict built for an image. *)
Definition chart_of_image (page_num : Z) (sec sub : option str)
  (img : Image.t) : Chart.t :=
  Chart.mk sec sub
    (lit "Chart or image on page " ++ str_of_Z page_num)
    (Image.x0 img, Image.top img, Image.x1 img, Image.bottom img)
    (Image.top img).

(** The key of the final [sorted]:
    [x["top"] if isinstance(x.get("top"), (int, float)) else 1e9]. *)
Definition sort_key (x : Entry) : Q :=
  match Entry.top x with
  | Some top => top
  | None => 1000000000 # 1
  end.

(** ** The line loop of [parse_pdf] *)

(** The loop [for ch in page.chars: lines[round(ch["top"])] += [ch]]. *)
Definition group_lines (chars : list Char.t) : Dict (list Char.t) :=
  fold_left
    (fun lines ch => dict_update [] (fun l => l ++ [ch]) (Py.round (Char.top ch)) lines)
    chars [].

(** [sorted(lines.items())]: the keys are distinct, so the items are
    ordered by their key alone. *)
Definition sorted_lines (chars : list Char.t) : list (Z * list Char.t) :=
  Py.sorted Z.ltb fst (group_lines chars).

(** The assignments made for a role. *)
Definition track_section (role : Role) (line_text : str)
  (sec sub : option str) : option str * option str :=
  match role with
  | RoleSection => (Some line_text, None)
  | RoleSubSection => (sec, Some line_text)
  | RoleParagraph => (sec, sub)
  end.

(** From here on the program reads the character classes. *)
Section Program.
Context `{U : Py.Unicode}.

(** *** [is_number_line] *)

Definition clean_number_text (text : str) : str :=
  Py.remove_ch "%" (Py.remove_ch "." (Py.remove_ch "-" (Py.remove_ch " " text))).

Definition is_number_line (text : str) : bool :=
  Py.isdigit (clean_number_text text).

(** *** The body of the line loop *)

(** ["".join([c["text"] for c in char_list]).strip()] *)
Definition line_text_of (char_list : list Char.t) : str :=
  Py.strip (Py.join (map Char.text char_list)).

(** The running header and footer test of the loop. *)
Definition is_header_footer (line_text : str) : bool :=
  Py.isupper line_text
  && (length (Py.split line_text) <=? 2)%nat
  && (length line_text <? 15)%nat.

(** One iteration of [for top, char_list in sorted_lines]. *)
Definition process_line (st : LoopState.t) (line : Z * list Char.t) : LoopState.t :=
  let '(top, char_list) := line in
  let line_text := line_text_of char_list in
  if negb (Py.truthy line_text) then st
  else if is_header_footer line_text then st
  else
    let role := identify_text_role char_list in
    let '(current_section, current_sub_section) :=
      track_section role line_text
        (LoopState.current_section st) (LoopState.current_sub_section st) in
    match is_number_line line_text, LoopState.previous_entry st with
    | true, Some i =>
        LoopState.mk
          (alter (Entry.append_text (lit " " ++ line_text)) i
                 (LoopState.page_content st))
          current_section current_sub_section (Some i)
    | _, _ =>
        let entry :=
          EParagraph (Paragraph.mk current_section current_sub_section line_text top) in
        LoopState.mk
          (LoopState.page_content st ++ [entry])
          current_section current_sub_section
          (Some (length (LoopState.page_content st)))
    end.

Definition process_lines (st : LoopState.t) (lines : list (Z * list Char.t))
  : LoopState.t :=
  fold_left process_line lines st.

(** *** The page body *)

(** [page_content] after the line loop, the table loops and
    [page_content.extend(charts)], before the final [sorted]. *)
Definition page_entries (w : World.t) (pdf_path : str) (page_num : Z)
  (page : PdfPage.t) : M (list Entry) :=
  let* _ := emit (EvPage page_num) in
  let st := process_lines LoopState.init (sorted_lines (PdfPage.chars page)) in
  let sec := LoopState.current_section st in
  let sub := LoopState.current_sub_section st in
  let* tables := table_entries w pdf_path page_num page sec sub in
  let charts := map (chart_of_image page_num sec sub) (PdfPage.images page) in
  let charts := deduplicate_charts charts in
  ret (LoopState.page_content st ++ tables ++ map EChart charts).

(** The body of [for i, page in enumerate(pdf.pages)]. *)
Definition parse_page (w : World.t) (pdf_path : str) (page_num : Z)
  (page : PdfPage.t) : M Page.t :=
  let* page_content := page_entries w pdf_path page_num page in
  ret (Page.mk page_num (Py.sorted Py.Qltb sort_key page_content)).

(** The loop over [enumerate(pdf.pages)], from index [i]. *)
Fixpoint parse_pages (w : World.t) (pdf_path : str) (i : Z)
  (pages : list PdfPage.t) : M (list Page.t) :=
  match pages with
  | [] => ret []
  | page :: rest =>
      let* p := parse_page w pdf_path (i + 1) page in
      let* ps := parse_pages w pdf_path (i + 1) rest in
      ret (p :: ps)
  end.

(** *** [parse_pdf] and [main] *)

Definition parse_pdf (w : World.t) (pdf_path : str) : M Document :=
  let* _ := emit (EvExists pdf_path) in
  if negb (World.path_exists w pdf_path) then
    raise (FileNotFoundError (lit "File not found: " ++ pdf_path))
  else
    let* _ := emit (EvOpen pdf_path) in
    let* pages := lift (World.pdfplumber_open w pdf_path) in
    parse_pages w pdf_path 0 pages.

(** [main], given the two parsed arguments.  The output is written in two
    steps, each of which can raise inside the [try]: [open(..., "w")],
    then [json.dump] into the file that was opened. *)
Definition main (w : World.t) (input_pdf output_json : str) : M unit :=
  try_except
    (let* _ := emit (EvPrint (lit "Parsing '" ++ input_pdf ++ lit "'...")) in
     let* extracted_data := parse_pdf w input_pdf in
     let* _ := emit (EvOpenOutput output_json) in
     let* _ := lift (World.open_output w output_json) in
     let* _ := emit (EvJsonDump output_json extracted_data) in
     let* _ := lift (World.json_dump w output_json extracted_data) in
     emit (EvPrint (lit "Extracted content saved to '" ++ output_json ++ lit "'")))
    (fun e => emit (EvPrint (lit "Error: " ++ exn_str e))).

End Program.

(** * Specification vocabulary

    The notions the properties below are stated with. *)

(** The text without its spaces, hyphens, periods and percent signs, as
    the specification words it. *)
Fixpoint filter_ch (p : N -> bool) (s : str) : str :=
  match s with
  | [] => []
  | c :: r => if p c then c :: filter_ch p r else filter_ch p r
  end.

Definition is_separator (c : N) : bool :=
  bool_decide (c ∈ map ord [" "; "-"; "."; "%"]%char).

Definition without_separators (text : str) : str :=
  filter_ch (fun c => negb (is_separator c)) text.

(** The paragraph dict [p] after an assignment to its ["text"]. *)
Definition with_text (p : Paragraph.t) (text : str) : Paragraph.t :=
  Paragraph.mk (Paragraph.section p) (Paragraph.sub_section p) text (Paragraph.top p).

(** The counting loop of [identify_text_role], over the rounded sizes. *)
Definition count_sizes (d : Dict nat) (sizes : list Z) : Dict nat :=
  fold_left (fun d k => dict_update 0%nat S k d) sizes d.

(** What holds of the loop variables at every iteration: the list holds
    paragraph dicts only, and [previous_entry] is its last item. *)
Definition loop_invariant (st : LoopState.t) : Prop :=
  Forall (fun e => Entry.type e = TParagraph) (LoopState.page_content st)
  /\ match LoopState.previous_entry st with
     | None => LoopState.page_content st = []
     | Some i => S i = length (LoopState.page_content st)
     end.

Definition is_table (e : Entry) : bool :=
  match e with ETable _ => true | _ => false end.

Definition is_paragraph (e : Entry) : bool :=
  match e with EParagraph _ => true | _ => false end.

(** The charts whose rounded bounding box is [k]. *)
Definition same_key (k : BBoxKey) (c : Chart.t) : bool :=
  bool_decide (rounded_bbox c = k).

(** The order the specification asks for: an entry without a numeric
    [top] comes after every entry that has one. *)
Definition untopped_last (content : list Entry) : Prop :=
  forall i j a b,
    content !! i = Some a -> content !! j = Some b ->
    Entry.top a = None -> is_Some (Entry.top b) -> (j < i)%nat.

(** The characters of a page whose rounded [top] is [k], in page order. *)
Definition line_chars (k : Z) (chars : list Char.t) : list Char.t :=
  List.filter (fun ch => Z.eqb (Py.round (Char.top ch)) k) chars.

(** The texts of the paragraph entries of a list, in order. *)
Definition entry_texts (content : list Entry) : list str :=
  omap Entry.text content.

(** The strings of a list joined by single spaces. *)
Definition unwords (l : list str) : str :=
  match l with
  | [] => []
  | x :: r => fold_left (fun acc y => acc ++ lit " " ++ y) r x
  end.

(** The [top]s of the paragraph entries of a list, in order. *)
Definition paragraph_tops (content : list Entry) : list Z :=
  omap (fun e => match e with EParagraph p => Some (Paragraph.top p) | _ => None end)
       content.

(** ** Traces *)

(** Events that touch the output file, and events that read the input. *)
Definition is_write (ev : Event) : bool :=
  match ev with EvOpenOutput _ | EvJsonDump _ _ => true | _ => false end.

Definition reads_pdf (ev : Event) : bool :=
  match ev with
  | EvOpen _ | EvPage _ | EvCamelot _ _ | EvExtractTables _ => true
  | _ => false
  end.

(** The page numbers a trace reads, and what it does to the output, in
    order. *)
Definition pages_read (tr : list Event) : list Z :=
  omap (fun ev => match ev with EvPage n => Some n | _ => None end) tr.

Definition output_events (tr : list Event) : list Event :=
  List.filter is_write tr.

(** What [extract_tables_with_camelot] returns, and the call it makes,
    read off the environment. *)
Definition camelot_tables_of (w : World.t) (pdf_path : str) (page_num : Z)
  : list Grid :=
  match World.camelot w with
  | Some read_pdf =>
      match read_pdf pdf_path page_num with
      | inr grids => grids
      | inl _ => []
      end
  | None => []
  end.

Definition camelot_trace_of (w : World.t) (pdf_path : str) (page_num : Z)
  : list Event :=
  match World.camelot w with
  | Some _ => [EvCamelot pdf_path page_num]
  | None => []
  end.

(** What [main] does once [parse_pdf] has returned [doc]: it opens the
    output, and if that worked dumps [doc], and if that worked too prints
    the confirmation; a step that raises is followed by the error
    message alone. *)
Definition error_message (e : Exn) : Event := EvPrint (lit "Error: " ++ exn_str e).

Definition output_steps (w : World.t) (output_json : str) (doc : Document)
  : list Event :=
  EvOpenOutput output_json
  :: match World.open_output w output_json with
     | inl e => [error_message e]
     | inr _ =>
         EvJsonDump output_json doc
         :: match World.json_dump w output_json doc with
            | inl e => [error_message e]
            | inr _ =>
                [EvPrint (lit "Extracted content saved to '" ++ output_json ++ lit "'")]
            end
     end.

(** ** Lines, pages and text under a character database *)

Section Vocabulary.
Context `{U : Py.Unicode}.

(** The characters [is_number_line] tolerates. *)
Definition number_ch (d : N) : bool :=
  N.eqb d (ord " ") || (N.eqb d (ord "-") || (N.eqb d (ord ".")
  || (N.eqb d (ord "%") || Py.isdigit_ch d))).

(** A line that passes both [continue] tests at the head of the loop. *)
Definition retained (line_text : str) : Prop :=
  Py.truthy line_text = true /\ is_header_footer line_text = false.

(** A line is dropped when its iteration changes nothing. *)
Definition dropped (st : LoopState.t) (line : Z * list Char.t) : Prop :=
  process_line st line = st.

(** The text an anchor entry gains from a run of merged lines. *)
Definition merged_suffix (lines : list (Z * list Char.t)) : str :=
  Py.join (map (fun line => lit " " ++ line_text_of line.2) lines).

(** The loop variables after the last line of a page. *)
Definition final_state (page : PdfPage.t) : LoopState.t :=
  process_lines LoopState.init (sorted_lines (PdfPage.chars page)).

(** The charts of a page, after [deduplicate_charts]. *)
Definition page_charts (page_num : Z) (page : PdfPage.t) : list Chart.t :=
  let st := final_state page in
  deduplicate_charts
    (map (chart_of_image page_num (LoopState.current_section st)
                         (LoopState.current_sub_section st))
         (PdfPage.images page)).

(** The page [parse_page] returns; it never raises (see [parse_page_total]). *)
Definition page_result (w : World.t) (pdf_path : str) (page_num : Z)
  (page : PdfPage.t) : Page.t :=
  match outcome (parse_page w pdf_path page_num page) with
  | inr p => p
  | inl _ => Page.mk page_num []
  end.

(** A line that is neither skipped as empty nor as a header or footer. *)
Definition keeps (line : Z * list Char.t) : bool :=
  Py.truthy (line_text_of line.2) && negb (is_header_footer (line_text_of line.2)).

(** The texts of the lines the loop keeps, in order. *)
Definition kept_texts (lines : list (Z * list Char.t)) : list str :=
  map (fun line => line_text_of line.2) (List.filter keeps lines).

Definition starts_blank (s : str) : bool :=
  match s with [] => false | c :: _ => Py.isspace_ch c end.

Fixpoint ends_blank (s : str) : bool :=
  match s with
  | [] => false
  | [c] => Py.isspace_ch c
  | _ :: r => ends_blank r
  end.

(** A text with at least one character and no blank at either end. *)
Definition trimmed (s : str) : Prop :=
  s <> [] /\ starts_blank s = false /\ ends_blank s = false.

(** The label [x] is [None] or the text of a kept line of [lines] whose
    role is [role]. *)
Definition heading_of (role : Role) (lines : list (Z * list Char.t))
  (x : option str) : Prop :=
  x = None
  \/ exists line,
       line ∈ lines /\ keeps line = true
       /\ identify_text_role line.2 = role
       /\ x = Some (line_text_of line.2).

End Vocabulary.

(** ** Concrete inputs *)

(** A character, and the characters of a line of ASCII text, in one font
    size. *)
Definition char_of_size (text : string) (size : Z) : Char.t :=
  Char.mk (lit text) 0 (inject_Z size).

Definition chars_of (text : string) (size : Z) : list Char.t :=
  map (fun c => char_of_size (String c EmptyString) size) (list_ascii_of_string text).

(** A page with one table found by pdfplumber and one image whose [top]
    is 2e9. *)
Definition far_image_page : PdfPage.t :=
  PdfPage.mk [] [Image.mk 0 (2000000000 # 1) 1 (2000000001 # 1)] [[[Some (lit "x")]]].

(** An environment where every path exists, camelot is not installed and
    the output can be written. *)
Definition world_without_camelot (pages : list PdfPage.t) : World.t :=
  World.mk (fun _ => true) (fun _ => inr pages) None
           (fun _ => inr tt) (fun _ _ => inr tt).

(** An environment where no path exists. *)
Definition world_without_files : World.t :=
  World.mk (fun _ => false) (fun _ => inr [far_image_page]) None
           (fun _ => inr tt) (fun _ _ => inr tt).
(** * Properties *)

(** ** [sorted]: permutation, order and stability *)

Section SortedFacts.
Context {A : Type} (key : A -> Q).

Local Abbreviation ins := (Py.insert_sorted Py.Qltb key).
Local Abbreviation srt := (Py.sorted Py.Qltb key).
Local Abbreviation key_le := (fun a b : A => (key a <= key b)%Q).

Lemma Qltb_true a b : Py.Qltb a b = true -> (a < b)%Q.
Proof.
  unfold Py.Qltb. intros H. apply negb_true_iff in H.
  apply Qnot_le_lt. intros Hle. apply Qle_bool_iff in Hle. congruence.
Qed.

Lemma Qltb_false a b : Py.Qltb a b = false -> (b <= a)%Q.
Proof.
  unfold Py.Qltb. intros H. apply negb_false_iff in H.
  now apply Qle_bool_iff.
Qed.

Lemma insert_sorted_perm x l : Permutation (x :: l) (ins x l).
Proof.
  induction l as [|y r IH]; simpl; [reflexivity|].
  destruct (Py.Qltb (key y) (key x)); [|reflexivity].
  rewrite perm_swap. now apply perm_skip.
Qed.

Lemma sorted_perm l : Permutation l (srt l).
Proof.
  induction l as [|x l IH]; simpl; [reflexivity|].
  rewrite <- insert_sorted_perm. now apply perm_skip.
Qed.

Lemma insert_sorted_ordered x l :
  StronglySorted key_le l -> StronglySorted key_le (ins x l).
Proof.
  induction 1 as [|y r Hr IH Hy]; simpl.
  - repeat constructor.
  - destruct (Py.Qltb (key y) (key x)) eqn:E.
    + constructor; [exact IH|].
      apply Qltb_true in E.
      rewrite <- (insert_sorted_perm x r).
      constructor; [now apply Qlt_le_weak | exact Hy].
    + apply Qltb_false in E.
      constructor; [now constructor|].
      constructor; [exact E|].
      eapply Forall_impl; [exact Hy|].
      intros z Hz. simpl in Hz. now apply Qle_trans with (key y).
Qed.

Lemma sorted_ordered l : StronglySorted key_le (srt l).
Proof.
  induction l as [|x l IH]; simpl; [constructor|].
  now apply insert_sorted_ordered.
Qed.

(** Stability: items that share their key keep their order. *)
Lemma insert_sorted_stable (P : A -> bool) x l :
  (forall a b, P a = true -> P b = true -> (key a == key b)%Q) ->
  List.filter P (ins x l) = List.filter P (x :: l).
Proof.
  intros HP. induction l as [|y r IH]; [reflexivity|].
  cbn [Py.insert_sorted].
  destruct (Py.Qltb (key y) (key x)) eqn:E; [|reflexivity].
  apply Qltb_true in E.
  cbn [List.filter] in *. rewrite IH.
  destruct (P x) eqn:Ex, (P y) eqn:Ey; try reflexivity.
  rewrite (HP x y Ex Ey) in E. now apply Qlt_irrefl in E.
Qed.

Lemma sorted_stable_on (P : A -> bool) l :
  (forall a b, P a = true -> P b = true -> (key a == key b)%Q) ->
  List.filter P (srt l) = List.filter P l.
Proof.
  intros HP. induction l as [|x l IH]; [reflexivity|].
  cbn [Py.sorted fold_right]. rewrite insert_sorted_stable by exact HP.
  cbn [List.filter]. fold (srt l). now rewrite IH.
Qed.

Lemma sorted_stable q l :
  List.filter (fun e => Qeq_bool (key e) q) (srt l)
  = List.filter (fun e => Qeq_bool (key e) q) l.
Proof.
  apply sorted_stable_on. intros a b Ha Hb.
  apply Qeq_bool_iff in Ha, Hb. now rewrite Ha, Hb.
Qed.

Lemma StronglySorted_lookup_le l i j a b :
  StronglySorted key_le l ->
  l !! i = Some a -> l !! j = Some b -> (i < j)%nat -> (key a <= key b)%Q.
Proof.
  intros Hs. revert i j. induction Hs as [|y r Hr IH Hy]; intros i j Hi Hj Hlt.
  - discriminate.
  - destruct j as [|j]; [lia|]. destruct i as [|i]; simpl in *.
    + injection Hi as <-. rewrite Forall_forall in Hy. apply Hy.
      eapply list_elem_of_lookup_2. exact Hj.
    + eapply IH; eauto. lia.
Qed.
End SortedFacts.

(** ** Strings *)

Lemma append_neq (a b : str) : Py.truthy b = true -> a ++ b <> a.
Proof.
  intros Hb Heq. apply (f_equal length) in Heq.
  rewrite length_app in Heq. destruct b; [discriminate|].
  simpl in Heq. lia.
Qed.

Lemma all_ch_remove_ch p c s :
  Py.all_ch p (Py.remove_ch c s) = Py.all_ch (fun d => N.eqb d (ord c) || p d) s.
Proof.
  induction s as [|d s IH]; simpl; [reflexivity|].
  destruct (N.eqb d (ord c)); simpl; now rewrite IH.
Qed.

Lemma all_ch_forall p s :
  Py.all_ch p s = true <-> forall c, In c s -> p c = true.
Proof.
  induction s as [|d s IH]; simpl.
  - split; [intros _ c []|reflexivity].
  - rewrite andb_true_iff, IH. split.
    + intros [Hd Hs] c [<-|Hc]; auto.
    + intros H. split; [apply H; now left|]. intros c Hc. apply H. now right.
Qed.

(** *** Number lines and the header test

    A number line holds separators and digits only.  The separators are
    ASCII characters that are not uppercase letters, and no digit is an
    uppercase letter, so [str.isupper] is false of a number line. *)
Section NumberLines.
Context `{U : Py.Unicode}.

Lemma is_number_line_unfold text :
  is_number_line text
  = Py.truthy (clean_number_text text) && Py.all_ch number_ch text.
Proof.
  unfold is_number_line, Py.isdigit, clean_number_text at 2.
  now rewrite !all_ch_remove_ch.
Qed.

Lemma separator_not_upper (c : ascii) d :
  (ord c < 128)%N -> Ascii7.isupper (ord c) = false ->
  N.eqb d (ord c) = true -> Py.isupper_ch d = false.
Proof.
  intros Hlt Hc Hd. apply N.eqb_eq in Hd. subst d.
  now rewrite Py.isupper_ascii.
Qed.

Lemma number_ch_uncased d :
  number_ch d = true -> Py.isupper_ch d = false.
Proof.
  unfold number_ch. intros H.
  repeat (apply orb_true_iff in H as [H|H]);
    try (now apply Py.digit_not_upper);
    eapply separator_not_upper; try exact H; reflexivity.
Qed.

Lemma all_number_ch_not_upper s :
  Py.all_ch number_ch s = true -> Py.any_ch Py.isupper_ch s = false.
Proof.
  induction s as [|d s IH]; simpl; [reflexivity|].
  intros H. apply andb_true_iff in H as [Hd Hs].
  now rewrite (number_ch_uncased d Hd), IH.
Qed.

Lemma number_line_truthy text :
  is_number_line text = true -> Py.truthy text = true.
Proof. destruct text; [discriminate|reflexivity]. Qed.

Lemma number_line_not_header_footer text :
  is_number_line text = true -> is_header_footer text = false.
Proof.
  rewrite is_number_line_unfold. intros H. apply andb_true_iff in H as [_ H].
  unfold is_header_footer, Py.isupper.
  rewrite (all_number_ch_not_upper _ H). now rewrite andb_false_r.
Qed.
End NumberLines.

(** *** ASCII text

    On text below U+0080 every character database answers as
    [Py.ascii_only] does, so what the program does with a line of ASCII
    text can be computed. *)
Section AsciiText.
Context `{U : Py.Unicode}.

Lemma isascii_cons c s :
  Py.isascii (c :: s) = true <-> (c < 128)%N /\ Py.isascii s = true.
Proof.
  unfold Py.isascii. simpl. rewrite andb_true_iff, N.ltb_lt. tauto.
Qed.

Lemma isascii_app a b :
  Py.isascii (a ++ b) = Py.isascii a && Py.isascii b.
Proof. apply forallb_app. Qed.

Lemma lstrip_ascii s :
  Py.isascii s = true ->
  Py.lstrip s = Py.lstrip (U := Py.ascii_only) s
  /\ Py.isascii (Py.lstrip s) = true.
Proof.
  induction s as [|c s IH]; [now split|].
  intros Hs. pose proof Hs as Hcs. apply isascii_cons in Hs as [Hc Hs].
  simpl. rewrite Py.isspace_ascii by exact Hc.
  destruct (Ascii7.isspace c); [now apply IH|now split].
Qed.

Lemma rstrip_ascii s :
  Py.isascii s = true ->
  Py.rstrip s = Py.rstrip (U := Py.ascii_only) s
  /\ Py.isascii (Py.rstrip s) = true.
Proof.
  induction s as [|c s IH]; [now split|].
  intros Hs. apply isascii_cons in Hs as [Hc Hs].
  destruct (IH Hs) as [IH1 IH2]. simpl. rewrite <- IH1.
  rewrite Py.isspace_ascii by exact Hc.
  destruct (Py.rstrip s) as [|d r].
  - destruct (Ascii7.isspace c); split; try reflexivity.
    apply isascii_cons. now split.
  - split; [reflexivity|]. apply isascii_cons. now split.
Qed.

Lemma strip_ascii s :
  Py.isascii s = true ->
  Py.strip s = Py.strip (U := Py.ascii_only) s
  /\ Py.isascii (Py.strip s) = true.
Proof.
  intros Hs. unfold Py.strip.
  destruct (lstrip_ascii s Hs) as [E1 H1].
  destruct (rstrip_ascii _ H1) as [E2 H2].
  split; [|exact H2]. now rewrite E2, E1.
Qed.

Lemma split_from_ascii cur s :
  Py.isascii s = true ->
  Py.split_from cur s = Py.split_from (U := Py.ascii_only) cur s.
Proof.
  revert cur. induction s as [|c s IH]; intros cur Hs; [reflexivity|].
  apply isascii_cons in Hs as [Hc Hs].
  simpl. rewrite Py.isspace_ascii by exact Hc.
  destruct (Ascii7.isspace c); now rewrite IH.
Qed.

Lemma any_ch_ascii (p q : N -> bool) s :
  (forall c, (c < 128)%N -> p c = q c) ->
  Py.isascii s = true -> Py.any_ch p s = Py.any_ch q s.
Proof.
  intros Hpq. induction s as [|c s IH]; [reflexivity|].
  intros Hs. apply isascii_cons in Hs as [Hc Hs].
  simpl. now rewrite (Hpq c Hc), IH.
Qed.

Lemma all_ch_ascii (p q : N -> bool) s :
  (forall c, (c < 128)%N -> p c = q c) ->
  Py.isascii s = true -> Py.all_ch p s = Py.all_ch q s.
Proof.
  intros Hpq. induction s as [|c s IH]; [reflexivity|].
  intros Hs. apply isascii_cons in Hs as [Hc Hs].
  simpl. now rewrite (Hpq c Hc), IH.
Qed.

Lemma isupper_ascii_text s :
  Py.isascii s = true -> Py.isupper s = Py.isupper (U := Py.ascii_only) s.
Proof.
  intros Hs. unfold Py.isupper. f_equal; [f_equal|].
  - apply any_ch_ascii; [|exact Hs]. intros c Hc.
    now rewrite Py.islower_ascii, Py.istitle_ascii.
  - apply any_ch_ascii; [|exact Hs]. intros c Hc. now apply Py.isupper_ascii.
Qed.

Lemma remove_ch_isascii c s :
  Py.isascii s = true -> Py.isascii (Py.remove_ch c s) = true.
Proof.
  induction s as [|d s IH]; [reflexivity|].
  intros Hs. apply isascii_cons in Hs as [Hd Hs]. simpl.
  destruct (N.eqb d (ord c)); [now apply IH|].
  apply isascii_cons. split; [exact Hd|now apply IH].
Qed.

Lemma is_number_line_ascii text :
  Py.isascii text = true ->
  is_number_line text = is_number_line (U := Py.ascii_only) text.
Proof.
  intros Hs. unfold is_number_line, Py.isdigit. f_equal.
  apply all_ch_ascii; [intros c Hc; now apply Py.isdigit_ascii|].
  unfold clean_number_text. now repeat apply remove_ch_isascii.
Qed.

Lemma is_header_footer_ascii line_text :
  Py.isascii line_text = true ->
  is_header_footer line_text = is_header_footer (U := Py.ascii_only) line_text.
Proof.
  intros Hs. unfold is_header_footer, Py.split.
  now rewrite isupper_ascii_text, split_from_ascii.
Qed.

Lemma line_text_of_ascii char_list :
  Py.isascii (Py.join (map Char.text char_list)) = true ->
  line_text_of char_list = line_text_of (U := Py.ascii_only) char_list
  /\ Py.isascii (line_text_of char_list) = true.
Proof. apply strip_ascii. Qed.

Lemma process_line_ascii st top char_list :
  Py.isascii (Py.join (map Char.text char_list)) = true ->
  process_line st (top, char_list)
  = process_line (U := Py.ascii_only) st (top, char_list).
Proof.
  intros Hs. destruct (line_text_of_ascii char_list Hs) as [E Ha].
  unfold process_line.
  rewrite (is_header_footer_ascii _ Ha), (is_number_line_ascii _ Ha).
  now rewrite E.
Qed.
End AsciiText.

(** ** The line loop *)

Section LineLoop.
Context `{U : Py.Unicode}.
Import LoopState.

(** The three ways an iteration ends: [continue] on a dropped line,
    the number-line merge, a new entry. *)
Lemma process_line_dropped st top char_list :
  Py.truthy (line_text_of char_list) = false
  \/ is_header_footer (line_text_of char_list) = true ->
  process_line st (top, char_list) = st.
Proof.
  unfold process_line. intros [H|H].
  - now rewrite H.
  - rewrite H. now destruct (Py.truthy _).
Qed.

Lemma process_line_merge st top char_list i :
  let line_text := line_text_of char_list in
  let ctx := track_section (identify_text_role char_list) line_text
               (current_section st) (current_sub_section st) in
  is_number_line line_text = true ->
  previous_entry st = Some i ->
  process_line st (top, char_list)
  = mk (alter (Entry.append_text (lit " " ++ line_text)) i (page_content st))
       ctx.1 ctx.2 (Some i).
Proof.
  intros line_text ctx Hn Hp. unfold process_line. fold line_text.
  rewrite (number_line_truthy _ Hn), (number_line_not_header_footer _ Hn).
  simpl. fold ctx. destruct ctx. now rewrite Hn, Hp.
Qed.

Lemma process_line_new st top char_list :
  let line_text := line_text_of char_list in
  let ctx := track_section (identify_text_role char_list) line_text
               (current_section st) (current_sub_section st) in
  retained line_text ->
  is_number_line line_text = false \/ previous_entry st = None ->
  process_line st (top, char_list)
  = mk (page_content st ++ [EParagraph (Paragraph.mk ctx.1 ctx.2 line_text top)])
       ctx.1 ctx.2 (Some (length (page_content st))).
Proof.
  intros line_text ctx [Ht Hh] Hc. unfold process_line. fold line_text.
  rewrite Ht, Hh. simpl. fold ctx. destruct ctx.
  destruct Hc as [Hn|Hp]; [now rewrite Hn|].
  rewrite Hp. now destruct (is_number_line line_text).
Qed.

Lemma loop_invariant_last st i :
  loop_invariant st -> previous_entry st = Some i ->
  exists l p, page_content st = l ++ [EParagraph p] /\ length l = i.
Proof.
  intros [Hall Hprev] Hp. rewrite Hp in Hprev.
  destruct (exists_last (l := page_content st)) as (l & e & E).
  { intros E. now rewrite E in Hprev. }
  rewrite E in *. rewrite length_app in Hprev. simpl in Hprev.
  apply Forall_app in Hall as [_ He]. rewrite Forall_singleton in He.
  destruct e as [p| |]; try discriminate He.
  exists l, p. split; [reflexivity|lia].
Qed.

Lemma alter_last {A} (f : A -> A) (l : list A) (x : A) :
  alter f (length l) (l ++ [x]) = l ++ [f x].
Proof.
  replace (length l) with (length l + 0)%nat by lia.
  now rewrite alter_app_r.
Qed.

Lemma loop_invariant_init : loop_invariant init.
Proof. split; [constructor|reflexivity]. Qed.

Lemma process_line_invariant st line :
  loop_invariant st -> loop_invariant (process_line st line).
Proof.
  intros Hinv. destruct line as [top char_list].
  destruct (Py.truthy (line_text_of char_list)) eqn:Ht;
    [|rewrite process_line_dropped; auto].
  destruct (is_header_footer (line_text_of char_list)) eqn:Hh;
    [rewrite process_line_dropped; auto|].
  destruct (is_number_line (line_text_of char_list)) eqn:Hn.
  - destruct (previous_entry st) as [i|] eqn:Hp.
    + rewrite (process_line_merge st top char_list i Hn Hp).
      destruct (loop_invariant_last st i Hinv Hp) as (l & p & E & Hl).
      destruct Hinv as [Hall _]. rewrite E in *. subst i.
      rewrite alter_last. split; simpl.
      * apply Forall_app in Hall as [Hl _].
        apply Forall_app. split; [exact Hl|]. now repeat constructor.
      * rewrite !length_app. simpl. lia.
    + rewrite process_line_new; [|now split|now right].
      destruct Hinv as [Hall _]. split; simpl.
      * apply Forall_app. split; [exact Hall|]. now repeat constructor.
      * rewrite length_app. simpl. lia.
  - rewrite process_line_new; [|now split|now left].
    destruct Hinv as [Hall _]. split; simpl.
    + apply Forall_app. split; [exact Hall|]. now repeat constructor.
    + rewrite length_app. simpl. lia.
Qed.

Lemma process_lines_invariant st lines :
  loop_invariant st -> loop_invariant (process_lines st lines).
Proof.
  revert st. induction lines as [|line lines IH]; intros st Hinv; [exact Hinv|].
  apply IH. now apply process_line_invariant.
Qed.

Lemma process_lines_app st l1 l2 :
  process_lines st (l1 ++ l2) = process_lines (process_lines st l1) l2.
Proof. apply fold_left_app. Qed.
End LineLoop.

(** ** Tables *)

Lemma extract_tables_with_camelot_eq w pdf_path page_num :
  extract_tables_with_camelot w pdf_path page_num
  = (camelot_trace_of w pdf_path page_num,
     inr (camelot_tables_of w pdf_path page_num)).
Proof.
  unfold extract_tables_with_camelot, camelot_trace_of, camelot_tables_of.
  destruct (World.camelot w) as [read_pdf|]; [|reflexivity].
  simpl. now destruct (read_pdf pdf_path page_num).
Qed.

Lemma table_entries_eq w pdf_path page_num page sec sub :
  table_entries w pdf_path page_num page sec sub
  = match camelot_tables_of w pdf_path page_num with
    | [] =>
        (camelot_trace_of w pdf_path page_num ++ [EvExtractTables page_num],
         inr (map (table_entry sec sub)
                  (List.filter grid_accepted (PdfPage.extract_tables page))))
    | g :: gs =>
        (camelot_trace_of w pdf_path page_num,
         inr (map (table_entry sec sub) (g :: gs)))
    end.
Proof.
  unfold table_entries. rewrite extract_tables_with_camelot_eq.
  destruct (camelot_tables_of w pdf_path page_num); simpl.
  - reflexivity.
  - now rewrite app_nil_r.
Qed.

Lemma table_entries_total w pdf_path page_num page sec sub :
  exists tr grids,
    table_entries w pdf_path page_num page sec sub
    = (tr, inr (map (table_entry sec sub) grids)).
Proof.
  rewrite table_entries_eq.
  destruct (camelot_tables_of w pdf_path page_num); eauto.
Qed.

Lemma grid_accepted_iff (tbl : Grid) :
  grid_accepted tbl = true
  <-> exists row s, row ∈ tbl /\ Some s ∈ row /\ s <> [].
Proof.
  assert (Hcell : forall row, existsb cell_truthy row = true
                    <-> exists s, Some s ∈ row /\ s <> []).
  { intros row. rewrite existsb_exists. split.
    - intros ([s|] & Hin & Ht); [|discriminate].
      exists s. split; [now apply list_elem_of_In|]. now destruct s.
    - intros (s & Hin & Hs). exists (Some s).
      split; [now apply list_elem_of_In|]. now destruct s. }
  assert (Hrows : existsb (fun row => existsb cell_truthy row) tbl = true
                  <-> exists row s, row ∈ tbl /\ Some s ∈ row /\ s <> []).
  { rewrite existsb_exists. split.
    - intros (row & Hin & Hr). apply Hcell in Hr as (s & Hs).
      exists row, s. split; [now apply list_elem_of_In|exact Hs].
    - intros (row & s & Hin & Hs). exists row.
      split; [now apply list_elem_of_In|]. apply Hcell. eauto. }
  destruct tbl as [|row0 tbl]; [|exact Hrows].
  simpl. split; [discriminate|].
  intros (row & s & Hin & _). now apply elem_of_nil in Hin.
Qed.

(** ** The page *)

Section PageBody.
Context `{U : Py.Unicode}.

Lemma page_entries_total w pdf_path page_num page :
  exists tr grids,
    let st := final_state page in
    page_entries w pdf_path page_num page
    = (tr, inr (LoopState.page_content st
                ++ map (table_entry (LoopState.current_section st)
                                    (LoopState.current_sub_section st)) grids
                ++ map EChart (page_charts page_num page))).
Proof.
  unfold page_entries.
  destruct (table_entries_total w pdf_path page_num page
              (LoopState.current_section (final_state page))
              (LoopState.current_sub_section (final_state page)))
    as (tr & grids & E).
  fold (final_state page). simpl. rewrite E. simpl.
  exists (EvPage page_num :: tr ++ []), grids. reflexivity.
Qed.

Lemma parse_page_eq w pdf_path page_num page tr entries :
  page_entries w pdf_path page_num page = (tr, inr entries) ->
  parse_page w pdf_path page_num page
  = (tr, inr (Page.mk page_num (Py.sorted Py.Qltb sort_key entries))).
Proof.
  intros E. unfold parse_page. rewrite E. simpl. now rewrite app_nil_r.
Qed.

Lemma parse_page_total w pdf_path page_num page :
  exists tr,
    parse_page w pdf_path page_num page
    = (tr, inr (page_result w pdf_path page_num page))
    /\ Page.page_number (page_result w pdf_path page_num page) = page_num.
Proof.
  destruct (page_entries_total w pdf_path page_num page) as (tr & grids & E).
  cbv zeta in E. apply parse_page_eq in E.
  exists tr. unfold page_result, outcome. rewrite E. now split.
Qed.

(** The document has one page per page of the file, in order, numbered
    from 1, each the result of the page body. *)
Lemma parse_pages_outcome w pdf_path i pages :
  outcome (parse_pages w pdf_path i pages)
  = inr (imap (fun k page => page_result w pdf_path (i + 1 + Z.of_nat k) page) pages).
Proof.
  revert i. induction pages as [|page pages IH]; intros i; [reflexivity|].
  cbn [parse_pages]. rewrite imap_cons.
  destruct (parse_page_total w pdf_path (i + 1) page) as (tr & E & _).
  rewrite E. specialize (IH (i + 1)).
  destruct (parse_pages w pdf_path (i + 1) pages) as [tr' r].
  unfold outcome in IH. cbn [snd] in IH. subst r. cbn.
  replace (i + 1 + Z.of_nat 0) with (i + 1) by lia.
  do 2 f_equal. apply imap_ext. intros k x _. cbn.
  now replace (i + 1 + 1 + Z.of_nat k) with (i + 1 + Z.of_nat (S k)) by lia.
Qed.

Lemma parse_pdf_document w pdf_path pages :
  World.path_exists w pdf_path = true ->
  World.pdfplumber_open w pdf_path = inr pages ->
  outcome (parse_pdf w pdf_path)
  = inr (imap (fun k page => page_result w pdf_path (1 + Z.of_nat k) page) pages).
Proof.
  intros Hex Hopen. unfold parse_pdf. rewrite Hex, Hopen. cbn.
  pose proof (parse_pages_outcome w pdf_path 0 pages) as H.
  destruct (parse_pages w pdf_path 0 pages) as [tr r].
  unfold outcome in *. cbn [snd] in *. now rewrite H.
Qed.

End PageBody.

(** ** Final order of a page (claim C1) *)

Section FinalOrder.
Context `{U : Py.Unicode}.

(** C1 (amended): the content of every page is the stable sort of the
    appended list (paragraphs, then tables, then charts) by the key "[top]
    when numeric, else 1e9": it is a permutation of the appended list, the
    keys ascend, entries of equal key keep their append order, and an entry
    without a numeric [top] comes after every entry whose [top] is below
    1e9. *)
Theorem page_content_sorted_by_key w pdf_path page_num page :
  exists tr paragraphs tables charts,
    let appended := paragraphs ++ tables ++ charts in
    let content := Py.sorted Py.Qltb sort_key appended in
    page_entries w pdf_path page_num page = (tr, inr appended)
    /\ parse_page w pdf_path page_num page = (tr, inr (Page.mk page_num content))
    /\ Forall (fun e => Entry.type e = TParagraph) paragraphs
    /\ Forall (fun e => Entry.type e = TTable) tables
    /\ Forall (fun e => Entry.type e = TChart) charts
    /\ Permutation appended content
    /\ StronglySorted (fun a b => (sort_key a <= sort_key b)%Q) content
    /\ (forall q,
          List.filter (fun e => Qeq_bool (sort_key e) q) content
          = List.filter (fun e => Qeq_bool (sort_key e) q) appended)
    /\ (forall e,
          sort_key e = match Entry.top e with Some t => t | None => 1000000000 # 1 end)
    /\ (forall i j a b t,
          content !! i = Some a -> content !! j = Some b ->
          Entry.top a = None -> Entry.top b = Some t ->
          (t < 1000000000 # 1)%Q -> (j < i)%nat).
Proof.
  destruct (page_entries_total w pdf_path page_num page) as (tr & grids & E).
  simpl in E.
  set (st := final_state page) in *.
  exists tr, (LoopState.page_content st),
    (map (table_entry (LoopState.current_section st)
                      (LoopState.current_sub_section st)) grids),
    (map EChart (page_charts page_num page)).
  cbv zeta.
  split; [exact E|].
  split; [now apply parse_page_eq|].
  split.
  { apply (process_lines_invariant LoopState.init), loop_invariant_init. }
  split; [now apply Forall_map, Forall_true|].
  split; [now apply Forall_map, Forall_true|].
  split; [apply sorted_perm|].
  split; [apply sorted_ordered|].
  split; [intros q; apply sorted_stable|].
  split; [reflexivity|].
  intros i j a b t Hi Hj Ha Hb Ht.
  destruct (Nat.lt_trichotomy i j) as [Hlt|[->|Hgt]]; [|congruence|exact Hgt].
  pose proof (StronglySorted_lookup_le sort_key _ i j a b
                (sorted_ordered sort_key _) Hi Hj Hlt) as Hle.
  unfold sort_key in Hle. rewrite Ha, Hb in Hle.
  exfalso. eapply Qlt_not_le; eassumption.
Qed.

End FinalOrder.

(** C1, as stated, fails: the table of [far_image_page] is sorted with the
    key 1e9 and so stands before the chart, whose [top] is 2e9.  The page
    has no text, so this is what every character database gives. *)
Lemma tables_not_always_last :
  exists content,
    (forall U : Py.Unicode,
       outcome (parse_page (world_without_camelot [far_image_page]) (lit "a.pdf") 1
                           far_image_page)
       = inr (Page.mk 1 content))
    /\ ~ untopped_last content.
Proof.
  eexists. split; [intros U; vm_compute; reflexivity|].
  intros H.
  specialize (H 0%nat 1%nat _ _ eq_refl eq_refl eq_refl (ex_intro _ _ eq_refl)).
  lia.
Qed.

(** ** Dictionaries and [max] *)

Section DictFacts.
Context {V : Type} (dflt : V) (f : V -> V).

Lemma dict_get_update_eq k (d : Dict V) :
  dict_get (dict_update dflt f k d) k
  = Some (f (match dict_get d k with Some v => v | None => dflt end)).
Proof.
  induction d as [|[k' v] d IH]; simpl.
  - now rewrite Z.eqb_refl.
  - destruct (Z.eqb k' k) eqn:E; simpl; rewrite E; [reflexivity|exact IH].
Qed.

Lemma dict_get_update_ne k k' (d : Dict V) :
  k <> k' -> dict_get (dict_update dflt f k d) k' = dict_get d k'.
Proof.
  intros Hne. induction d as [|[k0 v] d IH]; simpl.
  - destruct (Z.eqb_spec k k'); [contradiction|reflexivity].
  - destruct (Z.eqb_spec k0 k) as [->|Hk]; simpl.
    + destruct (Z.eqb_spec k k'); [contradiction|reflexivity].
    + now rewrite IH.
Qed.

Lemma dict_keys_update k k' (d : Dict V) :
  k' ∈ dict_keys (dict_update dflt f k d) <-> k' ∈ dict_keys d \/ k' = k.
Proof.
  unfold dict_keys. induction d as [|[k0 v] d IH]; simpl.
  - rewrite list_elem_of_singleton. split; [now right|].
    intros [H|H]; [now apply elem_of_nil in H|exact H].
  - destruct (Z.eqb_spec k0 k) as [->|Hk]; simpl.
    + rewrite !elem_of_cons. intuition.
    + rewrite !elem_of_cons, IH. intuition.
Qed.
Lemma dict_keys_update_eq k (d : Dict V) :
  dict_keys (dict_update dflt f k d)
  = if decide (k ∈ dict_keys d) then dict_keys d else dict_keys d ++ [k].
Proof.
  unfold dict_keys. induction d as [|[k0 v] d IH].
  - cbn [dict_update map fst].
    destruct (decide (k ∈ [])) as [H|_]; [|reflexivity].
    now apply elem_of_nil in H.
  - cbn [dict_update]. destruct (Z.eqb_spec k0 k) as [->|Hk]; cbn [map fst].
    + destruct (decide (k ∈ k :: map fst d)) as [_|H]; [reflexivity|].
      exfalso. apply H. now left.
    + rewrite IH.
      destruct (decide (k ∈ map fst d)) as [Hin|Hnin],
               (decide (k ∈ k0 :: map fst d)) as [Hin'|Hnin'];
        try reflexivity.
      * exfalso. apply Hnin'. now right.
      * apply elem_of_cons in Hin' as [?|?]; [congruence|contradiction].
Qed.
End DictFacts.

Section MaxFacts.
Context {A : Type} (key : A -> nat).

Lemma max_from_spec best l :
  Py.max_from key best l ∈ best :: l
  /\ forall x, x ∈ best :: l -> (key x <= key (Py.max_from key best l))%nat.
Proof.
  revert best. induction l as [|y l IH]; intros best; simpl.
  - split; [now left|]. intros x Hx. apply list_elem_of_singleton in Hx. now subst.
  - destruct (Nat.ltb_spec (key best) (key y)) as [Hlt|Hge].
    + destruct (IH y) as [Hin Hmax]. split; [now right|].
      intros x Hx. apply elem_of_cons in Hx as [->|Hx]; [|now apply Hmax].
      specialize (Hmax y (list_elem_of_here _ _)). lia.
    + destruct (IH best) as [Hin Hmax]. split.
      * apply elem_of_cons in Hin as [->|Hin]; [now left|]. now do 2 right.
      * intros x Hx. apply elem_of_cons in Hx as [->|Hx].
        -- apply Hmax. now left.
        -- apply elem_of_cons in Hx as [->|Hx].
           ++ specialize (Hmax best (list_elem_of_here _ _)). lia.
           ++ apply Hmax. now right.
Qed.
(** Ties go to the item met first: every item before the result has a
    strictly smaller key. *)
Lemma max_from_first best l :
  exists pre post,
    best :: l = pre ++ Py.max_from key best l :: post
    /\ forall x, x ∈ pre -> (key x < key (Py.max_from key best l))%nat.
Proof.
  revert best. induction l as [|y l IH]; intros best; simpl.
  - exists [], []. split; [reflexivity|]. intros x Hx. now apply elem_of_nil in Hx.
  - destruct (Nat.ltb_spec (key best) (key y)) as [Hlt|Hge].
    + destruct (IH y) as (pre & post & E & Hpre).
      exists (best :: pre), post. split; [simpl; f_equal; exact E|].
      intros x [->|Hx]%elem_of_cons; [|now apply Hpre].
      destruct (max_from_spec y l) as [_ Hmax].
      specialize (Hmax y (list_elem_of_here _ _)). lia.
    + destruct (IH best) as (pre & post & E & Hpre).
      destruct pre as [|b pre]; simpl in E; injection E as E1 E2.
      * exists [], (y :: l). split; [simpl; now rewrite <- E1|].
        intros x Hx. now apply elem_of_nil in Hx.
      * subst b. exists (best :: y :: pre), post.
        split; [simpl; do 2 f_equal; exact E2|].
        assert (Hb : (key best < key (Py.max_from key best l))%nat)
          by (apply Hpre; now left).
        intros x [->|[->|Hx]%elem_of_cons]%elem_of_cons;
          [exact Hb|lia|apply Hpre; now right].
Qed.
End MaxFacts.

(** ** [identify_text_role] (claims C2 and C9) *)

Lemma font_sizes_count_sizes chars :
  font_sizes chars = count_sizes [] (map rounded_size chars).
Proof.
  unfold font_sizes, count_sizes. generalize (@nil (Z * nat)).
  induction chars as [|ch chars IH]; intros d; simpl; [reflexivity|apply IH].
Qed.

Lemma count_sizes_get d sizes k :
  font_sizes_get (count_sizes d sizes) k
  = (font_sizes_get d k + count_occ Z.eq_dec sizes k)%nat.
Proof.
  revert d. induction sizes as [|s sizes IH]; intros d; simpl; [lia|].
  fold (count_sizes (dict_update 0%nat S s d) sizes). rewrite IH.
  unfold font_sizes_get. destruct (Z.eq_dec s k) as [->|Hne].
  - rewrite dict_get_update_eq. destruct (dict_get d k); lia.
  - rewrite dict_get_update_ne by exact Hne. lia.
Qed.

Lemma count_sizes_keys d sizes k :
  k ∈ dict_keys (count_sizes d sizes) <-> k ∈ dict_keys d \/ k ∈ sizes.
Proof.
  revert d. induction sizes as [|s sizes IH]; intros d; simpl.
  - split; [now left|]. intros [H|H]; [exact H|now apply elem_of_nil in H].
  - fold (count_sizes (dict_update 0%nat S s d) sizes).
    rewrite IH, dict_keys_update, elem_of_cons. intuition.
Qed.

Lemma dominant_size_spec ch chars :
  let sizes := map rounded_size (ch :: chars) in
  exists dominant,
    dominant_size (ch :: chars) = Some dominant
    /\ dominant ∈ sizes
    /\ forall k, (count_occ Z.eq_dec sizes k <= count_occ Z.eq_dec sizes dominant)%nat.
Proof.
  intros sizes. unfold dominant_size.
  rewrite font_sizes_count_sizes. fold sizes.
  assert (Hch : rounded_size ch ∈ sizes) by now left.
  clearbody sizes.
  set (d := count_sizes [] sizes).
  assert (Hkeys : forall k, k ∈ dict_keys d <-> k ∈ sizes).
  { intros k. unfold d. rewrite count_sizes_keys. split; [|now right].
    intros [H|H]; [now apply elem_of_nil in H|exact H]. }
  assert (Hget : forall k, font_sizes_get d k = count_occ Z.eq_dec sizes k).
  { intros k. unfold d. now rewrite count_sizes_get. }
  destruct (dict_keys d) as [|k0 ks] eqn:Ek.
  - exfalso. apply (elem_of_nil (rounded_size ch)). now apply Hkeys.
  - unfold Py.max_by. eexists. split; [reflexivity|].
    destruct (max_from_spec (font_sizes_get d) k0 ks) as [Hin Hmax].
    split; [now apply Hkeys|].
    intros k. rewrite <- !Hget.
    destruct (decide (k ∈ sizes)) as [Hk|Hk].
    + apply Hmax. now apply Hkeys.
    + rewrite (Hget k).
      rewrite (proj1 (count_occ_not_In Z.eq_dec sizes k)); [lia|].
      intros HIn. apply Hk. now apply list_elem_of_In.
Qed.

Lemma count_sizes_keys_prefix d sizes :
  exists extra, dict_keys (count_sizes d sizes) = dict_keys d ++ extra.
Proof.
  revert d. induction sizes as [|s sizes IH]; intros d; simpl.
  - exists []. now rewrite app_nil_r.
  - fold (count_sizes (dict_update 0%nat S s d) sizes).
    destruct (IH (dict_update 0%nat S s d)) as (extra & ->).
    rewrite dict_keys_update_eq. destruct (decide (s ∈ dict_keys d)).
    + now exists extra.
    + exists (s :: extra). now rewrite <- app_assoc.
Qed.

(** The keys of the dict stand in the order their sizes are first met. *)
Lemma count_sizes_keys_order d sizes pre m post :
  dict_keys (count_sizes d sizes) = pre ++ m :: post ->
  m ∉ dict_keys d ->
  exists s1 s2,
    sizes = s1 ++ m :: s2 /\ (m ∉ s1) /\ forall x, x ∈ s1 -> x ∈ pre.
Proof.
  revert d. induction sizes as [|s sizes IH]; intros d E Hm.
  - simpl in E. exfalso. apply Hm. rewrite E, elem_of_app. right. now left.
  - cbn [count_sizes fold_left] in E.
    fold (count_sizes (dict_update 0%nat S s d) sizes) in E.
    destruct (decide (m = s)) as [->|Hne].
    { exists [], sizes. split; [reflexivity|].
      split; [apply not_elem_of_nil|].
      intros x Hx. now apply elem_of_nil in Hx. }
    assert (Hm' : m ∉ dict_keys (dict_update 0%nat S s d)).
    { rewrite dict_keys_update. intros [?|?]; [contradiction|congruence]. }
    destruct (IH _ E Hm') as (s1 & s2 & -> & Hs1 & Hpre).
    exists (s :: s1), s2. split; [reflexivity|]. split.
    + intros H. apply elem_of_cons in H as [?|?]; [congruence|contradiction].
    + intros x [->|Hx]%elem_of_cons; [|now apply Hpre].
      destruct (count_sizes_keys_prefix (dict_update 0%nat S s d) (s1 ++ m :: s2))
        as (extra & Hk).
      rewrite Hk in E. apply app_eq_inv in E as [(k & E1 & E2)|(k & E1 & E2)].
      * destruct k as [|k0 k].
        -- rewrite app_nil_r in E1. rewrite <- E1.
           apply dict_keys_update. now right.
        -- simpl in E2. injection E2 as <- _. exfalso. apply Hm'.
           rewrite E1, elem_of_app. right. now left.
      * rewrite E1, elem_of_app. left. apply dict_keys_update. now right.
Qed.

(** The tie-break of [max]: every character before the first character
    of the dominant size has a size of strictly smaller count. *)
Lemma dominant_size_first_of_ties chars dominant :
  dominant_size chars = Some dominant ->
  let sizes := map rounded_size chars in
  exists before c after,
    chars = before ++ c :: after
    /\ rounded_size c = dominant
    /\ forall x, x ∈ before ->
         (count_occ Z.eq_dec sizes (rounded_size x)
          < count_occ Z.eq_dec sizes dominant)%nat.
Proof.
  intros Hd sizes. unfold dominant_size in Hd.
  rewrite font_sizes_count_sizes in Hd. fold sizes in Hd.
  set (d := count_sizes [] sizes) in *.
  assert (Hget : forall k, font_sizes_get d k = count_occ Z.eq_dec sizes k).
  { intros k. unfold d. now rewrite count_sizes_get. }
  destruct (dict_keys d) as [|k0 ks] eqn:Ek; [discriminate|].
  injection Hd as Hd.
  destruct (max_from_first (font_sizes_get d) k0 ks) as (pre & post & E & Hpre).
  rewrite Hd in E, Hpre. rewrite <- Ek in E.
  destruct (count_sizes_keys_order [] sizes pre dominant post E)
    as (s1 & s2 & Hs & _ & Hin); [apply not_elem_of_nil|].
  unfold sizes in Hs. apply fmap_app_inv in Hs as (before & rest & -> & Hrest & ->).
  symmetry in Hrest. apply fmap_cons_inv in Hrest as (c & after & Hc & -> & ->).
  exists before, c, after. split; [reflexivity|]. split; [now rewrite Hc|].
  intros x Hx. rewrite <- !Hget. apply Hpre, Hin.
  now apply list_elem_of_fmap_2.
Qed.

(** [max] is never run on an empty dict. *)
Lemma dominant_size_is_Some ch chars : is_Some (dominant_size (ch :: chars)).
Proof. destruct (dominant_size_spec ch chars) as (d & -> & _). eauto. Qed.

(** C2: an empty character list is a paragraph; otherwise the role is
    read off the dominant rounded size, a size whose count no other size
    exceeds (of several such, the one met first in the line): [section]
    from 14, else [sub_section] from 12, else [paragraph]. *)
Theorem role_by_dominant_size :
  identify_text_role [] = RoleParagraph
  /\ forall ch chars,
       let line := ch :: chars in
       let sizes := map rounded_size line in
       exists dominant,
         dominant_size line = Some dominant
         /\ dominant ∈ sizes
         /\ (forall k, (count_occ Z.eq_dec sizes k
                        <= count_occ Z.eq_dec sizes dominant)%nat)
         /\ (exists before c after,
               line = before ++ c :: after
               /\ rounded_size c = dominant
               /\ forall x, x ∈ before ->
                    (count_occ Z.eq_dec sizes (rounded_size x)
                     < count_occ Z.eq_dec sizes dominant)%nat)
         /\ identify_text_role line
            = if (14 <=? dominant)%Z then RoleSection
              else if (12 <=? dominant)%Z then RoleSubSection
              else RoleParagraph.
Proof.
  split; [reflexivity|].
  intros ch chars line sizes.
  destruct (dominant_size_spec ch chars) as (d & Hd & Hin & Hmax).
  exists d. split; [exact Hd|]. split; [exact Hin|]. split; [exact Hmax|].
  split; [exact (dominant_size_first_of_ties line d Hd)|].
  unfold line, identify_text_role. now rewrite Hd.
Qed.

(** C9, as stated, fails: one character of size 14 and one of size 10 tie,
    and the size met first wins, so the two orders of the same two
    characters get different dominant sizes and different roles. *)
Lemma role_depends_on_order :
  let l1 := [char_of_size "A" 14; char_of_size "b" 10] in
  let l2 := [char_of_size "b" 10; char_of_size "A" 14] in
  Permutation (map rounded_size l1) (map rounded_size l2)
  /\ dominant_size l1 = Some 14 /\ dominant_size l2 = Some 10
  /\ identify_text_role l1 = RoleSection
  /\ identify_text_role l2 = RoleParagraph.
Proof.
  cbv zeta. split; [apply perm_swap|]. repeat split; vm_compute; reflexivity.
Qed.

(** C9 (amended): when one rounded size occurs strictly more often than
    every other, two character lists with the same multiset of rounded
    sizes get that size as dominant size, and the same role. *)
Theorem role_invariant_without_tie (l1 l2 : list Char.t) (d : Z) :
  Permutation (map rounded_size l1) (map rounded_size l2) ->
  (forall k, k <> d ->
     (count_occ Z.eq_dec (map rounded_size l1) k
      < count_occ Z.eq_dec (map rounded_size l1) d)%nat) ->
  dominant_size l1 = Some d
  /\ dominant_size l2 = Some d
  /\ identify_text_role l1 = identify_text_role l2.
Proof.
  intros Hperm Hstrict.
  assert (Hdom : forall l,
    (forall k, k <> d ->
       (count_occ Z.eq_dec (map rounded_size l) k
        < count_occ Z.eq_dec (map rounded_size l) d)%nat) ->
    dominant_size l = Some d /\ identify_text_role l = role_of_size d).
  { intros l Hl. destruct l as [|ch chars].
    - specialize (Hl (d + 1) ltac:(lia)). simpl in Hl. lia.
    - destruct (dominant_size_spec ch chars) as (m & Hm & _ & Hmax).
      destruct (Z.eq_dec m d) as [->|Hne].
      + split; [exact Hm|]. unfold identify_text_role. now rewrite Hm.
      + specialize (Hl m Hne). specialize (Hmax d). simpl in *. lia. }
  destruct (Hdom l1 Hstrict) as [H1 R1].
  destruct (Hdom l2) as [H2 R2].
  { intros k Hk.
    pose proof (proj1 (Permutation_count_occ Z.eq_dec _ _) Hperm) as Hc.
    rewrite <- !Hc. now apply Hstrict. }
  repeat split; congruence.
Qed.

Lemma role_invariant_without_tie_witness :
  let l1 := [char_of_size "A" 14; char_of_size "B" 14; char_of_size "c" 10] in
  let l2 := [char_of_size "c" 10; char_of_size "A" 14; char_of_size "B" 14] in
  Permutation (map rounded_size l1) (map rounded_size l2)
  /\ dominant_size l1 = Some 14
  /\ dominant_size l2 = Some 14
  /\ identify_text_role l1 = identify_text_role l2.
Proof.
  cbv zeta.
  assert (Hperm : Permutation [14; 14; 10] [10; 14; 14])
    by apply Permutation_sym, (Permutation_cons_append [14; 14] 10).
  split; [exact Hperm|].
  apply role_invariant_without_tie; [exact Hperm|].
  intros k Hk. change (map rounded_size _) with [14; 14; 10].
  cbn [count_occ].
  destruct (Z.eq_dec 14 k); [congruence|].
  destruct (Z.eq_dec 14 14); [|congruence].
  destruct (Z.eq_dec 10 14); [discriminate|].
  destruct (Z.eq_dec 10 k); lia.
Defined.

(** ** [deduplicate_charts] (claim C6) *)

Lemma deduplicate_from_filter seen charts k :
  List.filter (same_key k) (deduplicate_from seen charts)
  = if decide (k ∈ seen) then []
    else match List.find (same_key k) charts with
         | Some first => [first]
         | None => []
         end.
Proof.
  revert seen. induction charts as [|ch rest IH]; intros seen; simpl.
  - now destruct (decide (k ∈ seen)).
  - unfold same_key at 2. destruct (decide (rounded_bbox ch ∈ seen)) as [Hin|Hnin].
    + rewrite IH. destruct (decide (k ∈ seen)) as [Hk|Hk]; [reflexivity|].
      rewrite bool_decide_eq_false_2; [reflexivity|]. congruence.
    + simpl. rewrite IH. unfold same_key at 1.
      destruct (decide (rounded_bbox ch = k)) as [<-|Hne].
      * rewrite bool_decide_eq_true_2 by reflexivity.
        rewrite decide_True by (apply elem_of_union_l; now apply elem_of_singleton).
        now rewrite decide_False.
      * rewrite bool_decide_eq_false_2 by exact Hne.
        destruct (decide (k ∈ seen)) as [Hk|Hk].
        -- now rewrite decide_True by (now apply elem_of_union_r).
        -- rewrite decide_False; [reflexivity|].
           intros [Hs|Hs]%elem_of_union; [|contradiction].
           apply elem_of_singleton in Hs. congruence.
Qed.

Lemma deduplicate_from_NoDup seen charts :
  NoDup (map rounded_bbox (deduplicate_from seen charts))
  /\ forall c, c ∈ deduplicate_from seen charts -> rounded_bbox c ∉ seen.
Proof.
  revert seen. induction charts as [|ch rest IH]; intros seen; simpl.
  - split; [constructor|]. intros c Hc. now apply elem_of_nil in Hc.
  - destruct (decide (rounded_bbox ch ∈ seen)) as [Hin|Hnin]; [apply IH|].
    destruct (IH ({[rounded_bbox ch]} ∪ seen)) as [Hnd Hfresh]. split.
    + simpl. constructor; [|exact Hnd].
      intros Hdup. apply list_elem_of_fmap in Hdup as (c & Hc & Hin).
      apply Hfresh in Hin. apply Hin, elem_of_union_l.
      now apply elem_of_singleton.
    + intros c Hc. apply elem_of_cons in Hc as [->|Hc]; [exact Hnin|].
      apply Hfresh in Hc. intros Hs. now apply Hc, elem_of_union_r.
Qed.

Lemma deduplicate_from_sublist seen charts :
  sublist (deduplicate_from seen charts) charts.
Proof.
  revert seen. induction charts as [|ch rest IH]; intros seen; simpl.
  - constructor.
  - destruct (decide (rounded_bbox ch ∈ seen)).
    + apply sublist_cons, IH.
    + apply sublist_skip, IH.
Qed.

(** C6: among the chart candidates of a page, those whose bounding boxes
    round to the same 4-tuple leave exactly one entry, the first of them
    in the order met; the entries kept stay in that order. *)
Theorem deduplicate_charts_keeps_first (charts : list Chart.t) :
  let unique := deduplicate_charts charts in
  sublist unique charts
  /\ NoDup (map rounded_bbox unique)
  /\ forall ch, ch ∈ charts ->
       exists first,
         List.find (same_key (rounded_bbox ch)) charts = Some first
         /\ rounded_bbox first = rounded_bbox ch
         /\ List.filter (same_key (rounded_bbox ch)) unique = [first].
Proof.
  intros unique. split; [apply deduplicate_from_sublist|].
  split; [apply deduplicate_from_NoDup|].
  intros ch Hch. unfold unique, deduplicate_charts.
  rewrite deduplicate_from_filter. rewrite decide_False by set_solver.
  destruct (List.find (same_key (rounded_bbox ch)) charts) as [first|] eqn:E.
  - exists first. split; [reflexivity|]. split; [|reflexivity].
    apply find_some in E as [_ E]. now apply bool_decide_eq_true in E.
  - exfalso. apply list_elem_of_In in Hch.
    apply (find_none _ _ E) in Hch. unfold same_key in Hch.
    now rewrite bool_decide_eq_true_2 in Hch.
Qed.

(** ** Table resolution (claim C4) *)

Section TableResolution.
Context `{U : Py.Unicode}.

Lemma filter_all_false {A} (f : A -> bool) (l : list A) :
  Forall (fun x => f x = false) l -> List.filter f l = [].
Proof.
  induction 1 as [|x l Hx _ IH]; simpl; [reflexivity|]. now rewrite Hx.
Qed.

Lemma filter_all_true {A} (f : A -> bool) (l : list A) :
  Forall (fun x => f x = true) l -> List.filter f l = l.
Proof.
  induction 1 as [|x l Hx _ IH]; simpl; [reflexivity|]. now rewrite Hx, IH.
Qed.

Lemma filter_is_table_sorted paragraphs grids charts sec sub :
  Forall (fun e => Entry.type e = TParagraph) paragraphs ->
  List.filter is_table
    (Py.sorted Py.Qltb sort_key
       (paragraphs ++ map (table_entry sec sub) grids ++ map EChart charts))
  = map (table_entry sec sub) grids.
Proof.
  intros Hp. rewrite sorted_stable_on.
  - rewrite !List.filter_app.
    rewrite (filter_all_false is_table paragraphs).
    + rewrite (filter_all_false is_table (map EChart charts))
        by now apply Forall_map, Forall_true.
      rewrite filter_all_true by now apply Forall_map, Forall_true.
      now rewrite app_nil_r.
    + eapply Forall_impl; [exact Hp|]. now intros [].
  - intros [] []; try discriminate. reflexivity.
Qed.

(** C4: camelot is asked first; its absence or failure gives no table and
    no exception; [page.extract_tables()] is called exactly when camelot
    gave no table, and then a grid becomes a table entry exactly when one
    of its rows has a non-empty cell. *)
Theorem table_resolution w pdf_path page_num page :
  let st := final_state page in
  let sec := LoopState.current_section st in
  let sub := LoopState.current_sub_section st in
  let camelot_tables := camelot_tables_of w pdf_path page_num in
  let accepted := List.filter grid_accepted (PdfPage.extract_tables page) in
  let tables :=
    map (table_entry sec sub)
        (match camelot_tables with [] => accepted | _ :: _ => camelot_tables end) in
  extract_tables_with_camelot w pdf_path page_num
  = (match World.camelot w with
     | Some _ => [EvCamelot pdf_path page_num]
     | None => []
     end, inr camelot_tables)
  /\ (World.camelot w = None -> camelot_tables = [])
  /\ (forall read_pdf e,
        World.camelot w = Some read_pdf ->
        read_pdf pdf_path page_num = inl e -> camelot_tables = [])
  /\ (forall read_pdf grids,
        World.camelot w = Some read_pdf ->
        read_pdf pdf_path page_num = inr grids -> camelot_tables = grids)
  /\ table_entries w pdf_path page_num page sec sub
     = (trace (extract_tables_with_camelot w pdf_path page_num)
        ++ match camelot_tables with
           | [] => [EvExtractTables page_num]
           | _ :: _ => []
           end,
        inr tables)
  /\ (forall tbl,
        grid_accepted tbl = true
        <-> exists row s, row ∈ tbl /\ Some s ∈ row /\ s <> [])
  /\ (forall tbl,
        camelot_tables = [] -> PdfPage.extract_tables page = [tbl] ->
        tables = if grid_accepted tbl then [table_entry sec sub tbl] else [])
  /\ exists tr content,
       parse_page w pdf_path page_num page = (tr, inr (Page.mk page_num content))
       /\ List.filter is_table content = tables.
Proof.
  intros st sec sub camelot_tables accepted tables.
  assert (Hcam := extract_tables_with_camelot_eq w pdf_path page_num).
  assert (Htab := table_entries_eq w pdf_path page_num page sec sub).
  fold camelot_tables in Hcam, Htab.
  split; [exact Hcam|].
  split.
  { unfold camelot_tables, camelot_tables_of. now intros ->. }
  split.
  { unfold camelot_tables, camelot_tables_of. now intros r e -> ->. }
  split.
  { unfold camelot_tables, camelot_tables_of. now intros r g -> ->. }
  split.
  { rewrite Htab, Hcam. unfold tables, trace. simpl.
    destruct camelot_tables; [reflexivity|]. now rewrite app_nil_r. }
  split; [exact grid_accepted_iff|].
  split.
  { intros tbl Hc Hn. unfold tables, accepted. rewrite Hc, Hn. simpl.
    now destruct (grid_accepted tbl). }
  assert (Hentries :
    page_entries w pdf_path page_num page
    = (EvPage page_num :: fst (table_entries w pdf_path page_num page sec sub),
       inr (LoopState.page_content st ++ tables
            ++ map EChart (page_charts page_num page)))).
  { unfold page_entries. fold (final_state page). fold st sec sub.
    rewrite Htab. unfold tables.
    destruct camelot_tables; simpl; now rewrite app_nil_r. }
  eexists _, _. split; [apply parse_page_eq, Hentries|].
  unfold tables. apply filter_is_table_sorted.
  apply (process_lines_invariant LoopState.init), loop_invariant_init.
Qed.

End TableResolution.

(** ** Section tracking (claim C5) *)

Section SectionTracking.
Context `{U : Py.Unicode}.

Lemma process_line_context st top char_list :
  let line_text := line_text_of char_list in
  let st' := process_line st (top, char_list) in
  retained line_text ->
  (LoopState.current_section st', LoopState.current_sub_section st')
  = track_section (identify_text_role char_list) line_text
      (LoopState.current_section st) (LoopState.current_sub_section st).
Proof.
  intros line_text st' Hret. unfold st'.
  destruct (is_number_line line_text) eqn:Hn;
    [destruct (LoopState.previous_entry st) as [i|] eqn:Hp|].
  - rewrite (process_line_merge st top char_list i Hn Hp). simpl.
    now destruct (track_section _ _ _ _).
  - rewrite process_line_new; [|exact Hret|now right]. simpl.
    now destruct (track_section _ _ _ _).
  - rewrite process_line_new; [|exact Hret|now left]. simpl.
    now destruct (track_section _ _ _ _).
Qed.

Lemma page_charts_context page_num page c :
  c ∈ page_charts page_num page ->
  Chart.section c = LoopState.current_section (final_state page)
  /\ Chart.sub_section c = LoopState.current_sub_section (final_state page).
Proof.
  unfold page_charts, deduplicate_charts. intros Hc.
  eapply elem_of_sublist in Hc; [|apply deduplicate_from_sublist].
  apply list_elem_of_fmap in Hc as (img & -> & _). now split.
Qed.

(** C5 (amended): both slots are [None] when a page starts; a line that
    the loop keeps (its trimmed text is not empty and it is not taken for
    a running header or footer) and whose role is [section] sets the
    section to its text and clears the sub-section, one whose role is
    [sub_section] sets the sub-section only, a [paragraph] line changes
    neither; a line that the loop does not keep changes nothing, whatever
    its role; the tables and charts of a page carry the slots as they are
    after the last line. *)
Theorem section_tracking :
  (LoopState.current_section LoopState.init = None
   /\ LoopState.current_sub_section LoopState.init = None)
  /\ (forall st top char_list,
        let line_text := line_text_of char_list in
        let st' := process_line st (top, char_list) in
        retained line_text ->
        match identify_text_role char_list with
        | RoleSection =>
            LoopState.current_section st' = Some line_text
            /\ LoopState.current_sub_section st' = None
        | RoleSubSection =>
            LoopState.current_section st' = LoopState.current_section st
            /\ LoopState.current_sub_section st' = Some line_text
        | RoleParagraph =>
            LoopState.current_section st' = LoopState.current_section st
            /\ LoopState.current_sub_section st' = LoopState.current_sub_section st
        end)
  /\ (forall st top char_list,
        ~ retained (line_text_of char_list) ->
        process_line st (top, char_list) = st)
  /\ (forall w pdf_path page_num page,
        exists tr content,
          parse_page w pdf_path page_num page
          = (tr, inr (Page.mk page_num content))
          /\ forall e,
               e ∈ content ->
               Entry.type e = TTable \/ Entry.type e = TChart ->
               Entry.section e = LoopState.current_section (final_state page)
               /\ Entry.sub_section e
                  = LoopState.current_sub_section (final_state page)).
Proof.
  split; [now split|]. split; [|split].
  - intros st top char_list line_text st' Hret.
    pose proof (process_line_context st top char_list Hret) as H.
    fold st' line_text in H.
    destruct (identify_text_role char_list); simpl in H;
      injection H as H1 H2; now split.
  - intros st top char_list Hnot. apply process_line_dropped.
    destruct (Py.truthy (line_text_of char_list)) eqn:Ht; [|now left].
    destruct (is_header_footer (line_text_of char_list)) eqn:Hh; [now right|].
    exfalso. apply Hnot. now split.
  - intros w pdf_path page_num page.
    destruct (page_entries_total w pdf_path page_num page) as (tr & grids & E).
    simpl in E. eexists _, _. split; [apply parse_page_eq, E|].
    intros e He Htype.
    apply list_elem_of_In in He.
    eapply Permutation_in in He; [|apply Permutation_sym, sorted_perm].
    apply list_elem_of_In in He.
    rewrite !elem_of_app in He. destruct He as [He|[He|He]].
    + pose proof (process_lines_invariant LoopState.init
                    (sorted_lines (PdfPage.chars page)) loop_invariant_init)
        as [Hall _].
      rewrite Forall_forall in Hall. specialize (Hall e He).
      destruct Htype; congruence.
    + apply list_elem_of_fmap in He as (g & -> & _). now split.
    + apply list_elem_of_fmap in He as (c & -> & Hc).
      now apply page_charts_context in Hc.
Qed.

End SectionTracking.

Lemma section_tracking_witness :
  let U := Py.ascii_only in
  let chars := [char_of_size "I" 16; char_of_size "n" 16; char_of_size "t" 16] in
  let st' := process_line LoopState.init (10, chars) in
  retained (line_text_of chars)
  /\ identify_text_role chars = RoleSection
  /\ LoopState.current_section st' = Some (lit "Int")
  /\ LoopState.current_sub_section st' = None.
Proof.
  intros U. cbv zeta. split; [split; reflexivity|]. split; [reflexivity|].
  exact (proj1 (proj2 (section_tracking (U := Py.ascii_only))) LoopState.init 10
           [char_of_size "I" 16; char_of_size "n" 16; char_of_size "t" 16]
           (conj eq_refl eq_refl)).
Defined.

(** C5, as stated, fails for a line the loop drops.  The line "REVENUE"
    set in 16pt has role [section], but it is uppercase, one word and
    seven characters long: the loop takes it for a running header and
    skips it before its role is looked at, so the section is still
    [None] after it, whatever the character database. *)
Lemma dropped_heading_sets_no_section :
  let chars := chars_of "REVENUE" 16 in
  identify_text_role chars = RoleSection
  /\ forall U : Py.Unicode,
       line_text_of chars = lit "REVENUE"
       /\ process_line LoopState.init (10, chars) = LoopState.init
       /\ LoopState.current_section (process_line LoopState.init (10, chars))
          <> Some (line_text_of chars).
Proof.
  cbv zeta. split; [reflexivity|]. intros U.
  destruct (line_text_of_ascii (chars_of "REVENUE" 16) eq_refl) as [E _].
  rewrite process_line_ascii by reflexivity. rewrite E.
  split; [reflexivity|]. split; [reflexivity|]. discriminate.
Qed.

(** ** Entries made from lines (claim C10) *)

Section LineEntries.
Context `{U : Py.Unicode}.

(** Later iterations leave an entry in place and only ever extend its
    text. *)
Lemma process_line_preserves st line i e :
  LoopState.page_content st !! i = Some e ->
  exists e',
    LoopState.page_content (process_line st line) !! i = Some e'
    /\ Entry.type e' = Entry.type e
    /\ Entry.section e' = Entry.section e
    /\ Entry.sub_section e' = Entry.sub_section e
    /\ Entry.top e' = Entry.top e.
Proof.
  intros He. destruct line as [top char_list].
  destruct (Py.truthy (line_text_of char_list)) eqn:Ht.
  2: { rewrite process_line_dropped by now left. exists e. now rewrite He. }
  destruct (is_header_footer (line_text_of char_list)) eqn:Hh.
  { rewrite process_line_dropped by now right. exists e. now rewrite He. }
  assert (Hnew : is_number_line (line_text_of char_list) = false
                 \/ LoopState.previous_entry st = None ->
                 exists e', LoopState.page_content
                              (process_line st (top, char_list)) !! i = Some e'
                   /\ Entry.type e' = Entry.type e
                   /\ Entry.section e' = Entry.section e
                   /\ Entry.sub_section e' = Entry.sub_section e
                   /\ Entry.top e' = Entry.top e).
  { intros Hc. rewrite process_line_new; [|now split|exact Hc].
    cbn [LoopState.page_content].
    exists e. rewrite lookup_app_l by (eapply lookup_lt_Some; exact He).
    now rewrite He. }
  destruct (is_number_line (line_text_of char_list)) eqn:Hn.
  2: { apply Hnew. now left. }
  destruct (LoopState.previous_entry st) as [j|] eqn:Hp.
  2: { apply Hnew. now right. }
  rewrite (process_line_merge st top char_list j Hn Hp).
  cbn [LoopState.page_content].
  rewrite list_lookup_alter. destruct (decide (j = i)) as [->|Hne].
  - rewrite He. exists (Entry.append_text (lit " " ++ line_text_of char_list) e).
    split; [reflexivity|]. now destruct e.
  - exists e. now rewrite He.
Qed.

Lemma process_lines_preserves st lines i e :
  LoopState.page_content st !! i = Some e ->
  exists e',
    LoopState.page_content (process_lines st lines) !! i = Some e'
    /\ Entry.type e' = Entry.type e
    /\ Entry.section e' = Entry.section e
    /\ Entry.sub_section e' = Entry.sub_section e
    /\ Entry.top e' = Entry.top e.
Proof.
  revert st e. induction lines as [|line lines IH]; intros st e He.
  - exists e. split; [exact He|]. now repeat split.
  - destruct (process_line_preserves st line i e He)
      as (e1 & H1 & T1 & S1 & U1 & P1).
    destruct (IH _ _ H1) as (e2 & H2 & T2 & S2 & U2 & P2).
    exists e2. split; [exact H2|]. repeat split; congruence.
Qed.

(** C10: the line loop only ever appends paragraph-typed entries.  A
    retained line that is not merged as a number line appends one entry,
    with the line's text and position; when the line's role is [section]
    (respectively [sub_section]) the entry's [section] (respectively
    [sub_section]) is the line's own text, and it still is, at the same
    place of the list, after the rest of the lines. *)
Theorem line_entries_are_paragraphs :
  (forall lines,
     Forall (fun e => Entry.type e = TParagraph)
            (LoopState.page_content (process_lines LoopState.init lines)))
  /\ (forall st top char_list rest,
        let line_text := line_text_of char_list in
        let role := identify_text_role char_list in
        let st' := process_line st (top, char_list) in
        retained line_text ->
        is_number_line line_text = false \/ LoopState.previous_entry st = None ->
        exists p,
          LoopState.page_content st'
          = LoopState.page_content st ++ [EParagraph p]
          /\ Entry.type (EParagraph p) = TParagraph
          /\ Paragraph.text p = line_text
          /\ Paragraph.top p = top
          /\ (role = RoleSection -> Paragraph.section p = Some line_text)
          /\ (role = RoleSubSection -> Paragraph.sub_section p = Some line_text)
          /\ exists e,
               LoopState.page_content (process_lines st' rest)
                 !! length (LoopState.page_content st) = Some e
               /\ Entry.type e = TParagraph
               /\ Entry.section e = Paragraph.section p
               /\ Entry.sub_section e = Paragraph.sub_section p).
Proof.
  split.
  - intros lines.
    apply (process_lines_invariant LoopState.init), loop_invariant_init.
  - intros st top char_list rest line_text role st' Hret Hnew.
    pose proof (process_line_new st top char_list Hret Hnew) as E.
    fold line_text st' in E. cbv zeta in E.
    set (ctx := track_section (identify_text_role char_list) line_text
                  (LoopState.current_section st)
                  (LoopState.current_sub_section st)) in *.
    exists (Paragraph.mk ctx.1 ctx.2 line_text top).
    split; [now rewrite E|].
    split; [reflexivity|]. split; [reflexivity|]. split; [reflexivity|].
    split; [|split].
    + unfold ctx, role. now intros ->.
    + unfold ctx, role. now intros ->.
    + destruct (process_lines_preserves st' rest
                  (length (LoopState.page_content st))
                  (EParagraph (Paragraph.mk ctx.1 ctx.2 line_text top)))
        as (e & He & Ht & Hs & Hu & _).
      { rewrite E. simpl. apply list_lookup_middle. reflexivity. }
      exists e. auto.
Qed.

End LineEntries.

Lemma line_entries_are_paragraphs_witness :
  let U := Py.ascii_only in
  let chars := [char_of_size "I" 16; char_of_size "n" 16; char_of_size "t" 16] in
  let number := [char_of_size "4" 10; char_of_size "2" 10] in
  retained (line_text_of chars)
  /\ identify_text_role chars = RoleSection
  /\ exists e,
       LoopState.page_content
         (process_lines (process_line LoopState.init (10, chars)) [(20, number)])
         !! 0%nat = Some e
       /\ Entry.type e = TParagraph
       /\ Entry.section e = Some (lit "Int").
Proof.
  intros U. cbv zeta. split; [split; reflexivity|]. split; [reflexivity|].
  destruct (proj2 (line_entries_are_paragraphs (U := Py.ascii_only)) LoopState.init 10
              [char_of_size "I" 16; char_of_size "n" 16; char_of_size "t" 16]
              [(20, [char_of_size "4" 10; char_of_size "2" 10])]
              (conj eq_refl eq_refl) (or_intror eq_refl))
    as (p & _ & _ & _ & _ & Hsec & _ & e & He & Ht & Hs & _).
  exists e. split; [exact He|]. split; [exact Ht|].
  rewrite Hs. now apply Hsec.
Defined.

(** ** Number lines (claim C3) *)

Lemma remove_ch_filter_ch c s :
  Py.remove_ch c s = filter_ch (fun d => negb (N.eqb d (ord c))) s.
Proof.
  induction s as [|d s IH]; simpl; [reflexivity|].
  destruct (N.eqb d (ord c)); simpl; now rewrite IH.
Qed.

Lemma filter_ch_filter_ch p q s :
  filter_ch p (filter_ch q s) = filter_ch (fun d => q d && p d) s.
Proof.
  induction s as [|d s IH]; simpl; [reflexivity|].
  destruct (q d); simpl; [destruct (p d)|]; now rewrite IH.
Qed.

Lemma filter_ch_ext p q s :
  (forall c, p c = q c) -> filter_ch p s = filter_ch q s.
Proof.
  intros H. induction s as [|d s IH]; simpl; [reflexivity|].
  now rewrite H, IH.
Qed.

Lemma clean_number_text_spec text :
  clean_number_text text = without_separators text.
Proof.
  unfold clean_number_text, without_separators.
  rewrite !remove_ch_filter_ch, !filter_ch_filter_ch.
  apply filter_ch_ext. intros c. unfold is_separator.
  destruct (N.eqb_spec c (ord " ")) as [->|H1]; [reflexivity|].
  destruct (N.eqb_spec c (ord "-")) as [->|H2]; [reflexivity|].
  destruct (N.eqb_spec c (ord ".")) as [->|H3]; [reflexivity|].
  destruct (N.eqb_spec c (ord "%")) as [->|H4]; [reflexivity|].
  symmetry. apply negb_true_iff, bool_decide_eq_false.
  cbn [map]. rewrite !elem_of_cons, elem_of_nil. tauto.
Qed.

Section NumberLineMerging.
Context `{U : Py.Unicode}.

Lemma merge_number_line st top char_list i l p :
  is_number_line (line_text_of char_list) = true ->
  LoopState.previous_entry st = Some i ->
  LoopState.page_content st = l ++ [EParagraph p] ->
  length l = i ->
  let st' := process_line st (top, char_list) in
  LoopState.page_content st'
  = l ++ [EParagraph
            (with_text p (Paragraph.text p
                            ++ lit " " ++ line_text_of char_list))]
  /\ LoopState.previous_entry st' = Some i.
Proof.
  intros Hn Hp E Hl st'. unfold st'.
  rewrite (process_line_merge st top char_list i Hn Hp).
  cbn [LoopState.page_content LoopState.previous_entry].
  rewrite E. subst i. now rewrite alter_last.
Qed.

Lemma merge_number_lines st lines i l p :
  Forall (fun line => is_number_line (line_text_of line.2) = true) lines ->
  LoopState.previous_entry st = Some i ->
  LoopState.page_content st = l ++ [EParagraph p] ->
  length l = i ->
  let st' := process_lines st lines in
  LoopState.page_content st'
  = l ++ [EParagraph
            (with_text p (Paragraph.text p ++ merged_suffix lines))]
  /\ LoopState.previous_entry st' = Some i.
Proof.
  intros Hall. revert st p.
  induction Hall as [|[top char_list] lines Hn _ IH]; intros st p Hp E Hl.
  - cbn. unfold merged_suffix. cbn. rewrite app_nil_r.
    split; [|exact Hp]. rewrite E. now destruct p.
  - cbn [process_lines fold_left].
    destruct (merge_number_line st top char_list i l p Hn Hp E Hl) as [E1 Hp1].
    destruct (IH _ _ Hp1 E1 Hl) as [E2 Hp2].
    split; [|exact Hp2].
    unfold process_lines in E2. rewrite E2.
    unfold with_text, merged_suffix. cbn.
    now rewrite <- !app_assoc.
Qed.

(** C3: a text is a number line exactly when what is left of it without
    spaces, hyphens, periods and percent signs is non-empty and all
    digits.  A number line met when an entry was already appended adds a
    space and its text to the last entry and appends nothing; met first,
    it becomes the first entry.  A run of number lines is gathered, in
    order and one space before each, by the entry before the run. *)
Theorem number_line_merging :
  (forall text,
     is_number_line text = true
     <-> without_separators text <> []
         /\ forall c, In c (without_separators text) -> Py.isdigit_ch c = true)
  /\ (forall lines top char_list,
        let st := process_lines LoopState.init lines in
        let line_text := line_text_of char_list in
        let st' := process_line st (top, char_list) in
        is_number_line line_text = true ->
        match LoopState.previous_entry st with
        | Some i =>
            exists l p,
              LoopState.page_content st = l ++ [EParagraph p]
              /\ length l = i
              /\ LoopState.page_content st'
                 = l ++ [EParagraph
                           (with_text p
                              (Paragraph.text p
                                 ++ lit " " ++ line_text))]
              /\ LoopState.previous_entry st' = Some i
        | None =>
            LoopState.page_content st = []
            /\ exists p,
                 LoopState.page_content st' = [EParagraph p]
                 /\ Paragraph.text p = line_text
                 /\ Paragraph.top p = top
        end)
  /\ (forall lines numbers i,
        let st := process_lines LoopState.init lines in
        let st' := process_lines st numbers in
        Forall (fun line => is_number_line (line_text_of line.2) = true) numbers ->
        LoopState.previous_entry st = Some i ->
        exists l p,
          LoopState.page_content st = l ++ [EParagraph p]
          /\ length l = i
          /\ LoopState.page_content st'
             = l ++ [EParagraph
                       (with_text p
                          (Paragraph.text p ++ merged_suffix numbers))]
          /\ LoopState.previous_entry st' = Some i).
Proof.
  split; [|split].
  - intros text. unfold is_number_line, Py.isdigit.
    rewrite clean_number_text_spec, andb_true_iff, all_ch_forall.
    split; intros [H1 H2]; (split; [|exact H2]).
    + now destruct (without_separators text).
    + now destruct (without_separators text).
  - intros lines top char_list st line_text st' Hn.
    pose proof (process_lines_invariant LoopState.init lines loop_invariant_init)
      as Hinv.
    fold st in Hinv.
    destruct (LoopState.previous_entry st) as [i|] eqn:Hp.
    + destruct (loop_invariant_last st i Hinv Hp) as (l & p & E & Hl).
      exists l, p. split; [exact E|]. split; [exact Hl|].
      now apply merge_number_line.
    + destruct Hinv as [_ Hprev]. rewrite Hp in Hprev.
      split; [exact Hprev|].
      unfold st'. rewrite process_line_new.
      * cbn [LoopState.page_content]. rewrite Hprev. cbn.
        eexists. split; [reflexivity|]. now split.
      * split; [now apply number_line_truthy
               |now apply number_line_not_header_footer].
      * now right.
  - intros lines numbers i st st' Hall Hp.
    pose proof (process_lines_invariant LoopState.init lines loop_invariant_init)
      as Hinv.
    fold st in Hinv.
    destruct (loop_invariant_last st i Hinv Hp) as (l & p & E & Hl).
    exists l, p. split; [exact E|]. split; [exact Hl|].
    now apply merge_number_lines.
Qed.

End NumberLineMerging.

Lemma number_line_merging_witness :
  let U := Py.ascii_only in
  let anchor := (10, chars_of "Total" 10) in
  let numbers := [(20, chars_of "1 234" 10); (30, chars_of "56.7%" 10)] in
  let st := process_lines LoopState.init [anchor] in
  Forall (fun line => is_number_line (line_text_of line.2) = true) numbers
  /\ LoopState.previous_entry st = Some 0%nat
  /\ merged_suffix numbers = lit " 1 234 56.7%"
  /\ exists l p,
       LoopState.page_content st = l ++ [EParagraph p]
       /\ length l = 0%nat
       /\ LoopState.page_content (process_lines st numbers)
          = l ++ [EParagraph
                    (with_text p
                       (Paragraph.text p ++ merged_suffix numbers))]
       /\ LoopState.previous_entry (process_lines st numbers) = Some 0%nat.
Proof.
  intros U. cbv zeta.
  assert (Hall : Forall (fun line => is_number_line (line_text_of line.2) = true)
                   [(20, chars_of "1 234" 10); (30, chars_of "56.7%" 10)])
    by (repeat constructor).
  split; [exact Hall|]. split; [reflexivity|]. split; [reflexivity|].
  exact (proj2 (proj2 number_line_merging) [(10, chars_of "Total" 10)]
           [(20, chars_of "1 234" 10); (30, chars_of "56.7%" 10)] 0%nat
           Hall eq_refl).
Defined.

(** ** The header and footer filter (claim C7) *)

Section HeaderFooter.
Context `{U : Py.Unicode}.

Lemma summary_is_header_footer : is_header_footer (lit "SUMMARY") = true.
Proof. now rewrite is_header_footer_ascii. Qed.

Lemma long_title_is_retained : retained (lit "Annual Financial Summary").
Proof. split; [reflexivity|now rewrite is_header_footer_ascii]. Qed.

Lemma retained_line_changes_state st line :
  loop_invariant st -> retained (line_text_of line.2) -> ~ dropped st line.
Proof.
  intros Hinv Hret. destruct line as [top char_list]. unfold dropped.
  cbn [snd] in Hret. intros Heq.
  assert (Hnew : is_number_line (line_text_of char_list) = false
                 \/ LoopState.previous_entry st = None -> False).
  { intros Hc. rewrite process_line_new in Heq; [|exact Hret|exact Hc].
    apply (f_equal (fun s => length (LoopState.page_content s))) in Heq.
    cbn [LoopState.page_content] in Heq. rewrite length_app in Heq.
    simpl in Heq. lia. }
  destruct (is_number_line (line_text_of char_list)) eqn:Hn; [|now apply Hnew; left].
  destruct (LoopState.previous_entry st) as [i|] eqn:Hp; [|now apply Hnew; right].
  destruct (loop_invariant_last st i Hinv Hp) as (l & p & E & Hl).
  destruct (merge_number_line st top char_list i l p Hn Hp E Hl) as [E' _].
  rewrite Heq, E in E'. apply app_inv_head in E'.
  injection E' as E'. apply (f_equal Paragraph.text) in E'.
  cbn in E'. symmetry in E'. revert E'. now apply append_neq.
Qed.

(** C7 (amended): a line whose trimmed text is not empty is dropped,
    leaving the list and the section slots as they were, exactly when the
    text is uppercase, has at most two words and fewer than 15 characters
    (a line whose trimmed text is empty is dropped too); "SUMMARY" is
    dropped, "Annual Financial Summary" is kept as a paragraph entry. *)
Theorem header_footer_filter :
  (forall lines line,
     let st := process_lines LoopState.init lines in
     let line_text := line_text_of line.2 in
     (line_text <> [] -> (dropped st line <-> is_header_footer line_text = true))
     /\ (line_text = [] -> dropped st line)
     /\ (is_header_footer line_text = true
         <-> Py.isupper line_text = true
             /\ (length (Py.split line_text) <= 2)%nat
             /\ (length line_text < 15)%nat)
     /\ (line_text = lit "SUMMARY" -> dropped st line)
     /\ (line_text = lit "Annual Financial Summary" ->
         exists p,
           LoopState.page_content (process_line st line)
           = LoopState.page_content st ++ [EParagraph p]
           /\ Paragraph.text p = line_text))
  /\ is_header_footer (lit "SUMMARY") = true
  /\ is_header_footer (lit "Annual Financial Summary") = false.
Proof.
  split; [|split; [apply summary_is_header_footer|apply long_title_is_retained]].
  intros lines [top char_list] st. cbv zeta. cbn [snd].
  pose proof (process_lines_invariant LoopState.init lines loop_invariant_init)
    as Hinv.
  fold st in Hinv.
  split; [|split; [|split; [|split]]].
  - intros Hne. split.
    + intros Hd.
      destruct (is_header_footer (line_text_of char_list)) eqn:Hh; [reflexivity|].
      exfalso.
      apply (retained_line_changes_state st (top, char_list) Hinv); [|exact Hd].
      split; [|exact Hh]. cbn [snd].
      destruct (line_text_of char_list); [contradiction|reflexivity].
    + intros Hh. apply process_line_dropped. now right.
  - intros He. apply process_line_dropped. left. now rewrite He.
  - unfold is_header_footer. rewrite !andb_true_iff, Nat.leb_le, Nat.ltb_lt.
    tauto.
  - intros He. apply process_line_dropped. right.
    rewrite He. apply summary_is_header_footer.
  - intros He.
    assert (Hret : retained (line_text_of char_list))
      by (rewrite He; apply long_title_is_retained).
    assert (Hn : is_number_line (line_text_of char_list) = false)
      by (rewrite He; now rewrite is_number_line_ascii).
    rewrite process_line_new; [|exact Hret|now left].
    cbn [LoopState.page_content]. eexists. split; reflexivity.
Qed.

End HeaderFooter.

Lemma header_footer_filter_witness :
  let U := Py.ascii_only in
  let st := process_lines LoopState.init [(10, chars_of "Revenue grew" 10)] in
  (dropped st (20, chars_of "SUMMARY" 16)
   /\ ~ dropped st (30, chars_of "Annual Financial Summary" 10))
  /\ is_header_footer (lit "SUMMARY") = true
  /\ is_header_footer (lit "Annual Financial Summary") = false.
Proof.
  intros U. cbv zeta. split; [|exact (proj2 header_footer_filter)].
  pose proof (proj1 header_footer_filter [(10, chars_of "Revenue grew" 10)]) as H.
  split.
  - destruct (H (20, chars_of "SUMMARY" 16)) as (H1 & _).
    apply H1; [discriminate|reflexivity].
  - destruct (H (30, chars_of "Annual Financial Summary" 10)) as (H1 & _).
    intros Hd. apply H1 in Hd; discriminate.
Defined.

(** C7, as stated, fails in the "only if" direction: a line of one space
    has an empty text, which is not uppercase, and is dropped as well,
    whatever the character database. *)
Lemma blank_line_dropped :
  exists line,
    line = (10, chars_of " " 10)
    /\ forall U : Py.Unicode,
         dropped LoopState.init line
         /\ line_text_of line.2 = []
         /\ Py.isupper (line_text_of line.2) = false
         /\ is_header_footer (line_text_of line.2) = false.
Proof.
  eexists. split; [reflexivity|]. intros U. cbn [snd].
  destruct (line_text_of_ascii (chars_of " " 10) eq_refl) as [E _].
  unfold dropped. rewrite process_line_ascii by reflexivity. rewrite E.
  repeat split.
Qed.

(** ** A missing input file (claim C8) *)

Section MissingInput.
Context `{U : Py.Unicode}.

(** C8: when the input path does not exist, [parse_pdf] raises
    [FileNotFoundError] after the existence test alone, without opening
    the file or reading a page, and [main] prints the error and writes
    no output file. *)
Theorem missing_input_fails_fast (w : World.t) (input_pdf output_json : str) :
  World.path_exists w input_pdf = false ->
  parse_pdf w input_pdf
  = ([EvExists input_pdf],
     inl (FileNotFoundError (lit "File not found: " ++ input_pdf)))
  /\ Forall (fun ev => reads_pdf ev = false) (trace (parse_pdf w input_pdf))
  /\ Forall (fun ev => is_write ev = false /\ reads_pdf ev = false)
            (trace (main w input_pdf output_json))
  /\ main w input_pdf output_json
     = ([EvPrint (lit "Parsing '" ++ input_pdf ++ lit "'...");
         EvExists input_pdf;
         EvPrint (lit "Error: "
                    ++ lit "File not found: " ++ input_pdf)],
        inr tt).
Proof.
  intros Hmissing.
  assert (Hparse : parse_pdf w input_pdf
                   = ([EvExists input_pdf],
                      inl (FileNotFoundError
                             (lit "File not found: " ++ input_pdf)))).
  { unfold parse_pdf. now rewrite Hmissing. }
  assert (Hmain : main w input_pdf output_json
     = ([EvPrint (lit "Parsing '" ++ input_pdf ++ lit "'...");
         EvExists input_pdf;
         EvPrint (lit "Error: "
                    ++ lit "File not found: " ++ input_pdf)],
        inr tt)).
  { unfold main. now rewrite Hparse. }
  split; [exact Hparse|]. rewrite Hparse, Hmain.
  split; [|split; [|reflexivity]]; repeat constructor.
Qed.

End MissingInput.

Lemma missing_input_fails_fast_witness :
  let U := Py.ascii_only in
  let w := world_without_files in
  World.path_exists w (lit "missing.pdf") = false
  /\ outcome (parse_pdf w (lit "missing.pdf"))
     = inl (FileNotFoundError (lit "File not found: missing.pdf"))
  /\ Forall (fun ev => is_write ev = false /\ reads_pdf ev = false)
            (trace (main w (lit "missing.pdf") (lit "out.json"))).
Proof.
  intros U. cbv zeta. split; [reflexivity|].
  destruct (missing_input_fails_fast world_without_files
              (lit "missing.pdf") (lit "out.json") eq_refl)
    as (Hparse & _ & Hmain & _).
  split; [now rewrite Hparse|exact Hmain].
Defined.

(** * Further properties *)

(** ** Line assembly *)

Section SortedByZ.
Context {A : Type} (key : A -> Z).

Lemma insert_sorted_Z_perm x l :
  Permutation (x :: l) (Py.insert_sorted Z.ltb key x l).
Proof.
  induction l as [|y r IH]; simpl; [reflexivity|].
  destruct (Z.ltb (key y) (key x)); [|reflexivity].
  rewrite perm_swap. now apply perm_skip.
Qed.

Lemma sorted_Z_perm l : Permutation l (Py.sorted Z.ltb key l).
Proof.
  induction l as [|x l IH]; simpl; [reflexivity|].
  rewrite <- insert_sorted_Z_perm. now apply perm_skip.
Qed.

Lemma insert_sorted_Z_ordered x l :
  StronglySorted (fun a b => key a <= key b) l ->
  StronglySorted (fun a b => key a <= key b) (Py.insert_sorted Z.ltb key x l).
Proof.
  induction 1 as [|y r Hr IH Hy]; simpl.
  - repeat constructor.
  - destruct (Z.ltb_spec (key y) (key x)) as [Hlt|Hge].
    + constructor; [exact IH|].
      rewrite <- (insert_sorted_Z_perm x r).
      constructor; [lia|exact Hy].
    + constructor; [now constructor|].
      constructor; [exact Hge|].
      eapply Forall_impl; [exact Hy|]. intros z Hz. simpl in Hz. lia.
Qed.

Lemma sorted_Z_ordered l :
  StronglySorted (fun a b => key a <= key b) (Py.sorted Z.ltb key l).
Proof.
  induction l as [|x l IH]; simpl; [constructor|].
  now apply insert_sorted_Z_ordered.
Qed.

Lemma sorted_distinct_strict l :
  StronglySorted (fun a b => key a <= key b) l ->
  NoDup (map key l) ->
  StronglySorted (fun a b => key a < key b) l.
Proof.
  induction 1 as [|x r Hr IH Hx]; intros Hnd; [constructor|].
  simpl in Hnd. apply NoDup_cons in Hnd as [Hnin Hnd].
  constructor; [now apply IH|].
  rewrite Forall_forall in Hx |- *. intros y Hy.
  specialize (Hx y Hy).
  assert (key x <> key y); [|lia].
  intros Heq. apply Hnin. rewrite Heq. now apply list_elem_of_fmap_2.
Qed.
End SortedByZ.

Section DictItems.
Context {V : Type}.

Lemma dict_get_elem_of (d : Dict V) k v :
  NoDup (dict_keys d) -> ((k, v) ∈ d <-> dict_get d k = Some v).
Proof.
  unfold dict_keys. induction d as [|[k0 v0] d IH]; intros Hnd; simpl.
  - split; [intros H; now apply elem_of_nil in H|discriminate].
  - simpl in Hnd. apply NoDup_cons in Hnd as [Hnin Hnd].
    rewrite elem_of_cons, (IH Hnd).
    destruct (Z.eqb_spec k0 k) as [->|Hne].
    + split.
      * intros [E|E]; [now injection E as ->|].
        exfalso. apply Hnin. apply IH in E; [|exact Hnd].
        change k with (fst (k, v)). now apply list_elem_of_fmap_2.
      * intros E. left. now injection E as ->.
    + split; [intros [E|E]; [congruence|exact E]|now right].
Qed.

Lemma dict_update_NoDup dflt f k (d : Dict V) :
  NoDup (dict_keys d) -> NoDup (dict_keys (dict_update dflt f k d)).
Proof.
  intros Hnd. rewrite dict_keys_update_eq.
  destruct (decide (k ∈ dict_keys d)) as [Hin|Hnin]; [exact Hnd|].
  apply NoDup_app. split; [exact Hnd|]. split.
  - intros x Hx Hx'. apply list_elem_of_singleton in Hx'. now subst.
  - apply NoDup_singleton.
Qed.
End DictItems.

Lemma group_lines_get (d : Dict (list Char.t)) chars k :
  dict_get
    (fold_left
       (fun lines ch =>
          dict_update [] (fun l => l ++ [ch]) (Py.round (Char.top ch)) lines)
       chars d) k
  = match dict_get d k with
    | Some l => Some (l ++ line_chars k chars)
    | None => match line_chars k chars with [] => None | e => Some e end
    end.
Proof.
  revert d. induction chars as [|ch chars IH]; intros d.
  - simpl. destruct (dict_get d k); [now rewrite app_nil_r|reflexivity].
  - cbn [fold_left]. rewrite IH. unfold line_chars. cbn [List.filter].
    destruct (Z.eqb_spec (Py.round (Char.top ch)) k) as [->|Hne].
    + rewrite dict_get_update_eq.
      destruct (dict_get d _); [now rewrite <- app_assoc|reflexivity].
    + now rewrite dict_get_update_ne.
Qed.

Lemma group_lines_NoDup (d : Dict (list Char.t)) chars :
  NoDup (dict_keys d) ->
  NoDup (dict_keys
           (fold_left
              (fun lines ch =>
                 dict_update [] (fun l => l ++ [ch]) (Py.round (Char.top ch)) lines)
              chars d)).
Proof.
  revert d. induction chars as [|ch chars IH]; intros d Hnd; [exact Hnd|].
  cbn [fold_left]. apply IH. now apply dict_update_NoDup.
Qed.

Lemma sorted_lines_elem_of chars top char_list :
  (top, char_list) ∈ sorted_lines chars
  <-> char_list = line_chars top chars /\ char_list <> [].
Proof.
  assert (Hnd : NoDup (dict_keys (group_lines chars))).
  { apply group_lines_NoDup. constructor. }
  unfold sorted_lines.
  rewrite <- (sorted_Z_perm fst (group_lines chars)).
  rewrite (dict_get_elem_of _ _ _ Hnd).
  unfold group_lines. rewrite group_lines_get. cbn [dict_get].
  destruct (line_chars top chars) as [|c cs].
  - split; [discriminate|]. now intros [-> H].
  - split; [intros E; injection E as <-; now split|].
    now intros [-> _].
Qed.

Lemma sorted_lines_strict chars :
  StronglySorted (fun a b => a.1 < b.1) (sorted_lines chars).
Proof.
  apply sorted_distinct_strict; [apply sorted_Z_ordered|].
  unfold sorted_lines.
  rewrite <- (sorted_Z_perm fst (group_lines chars)).
  apply group_lines_NoDup. constructor.
Qed.

(** X1: the lines of a page are ordered by strictly ascending rounded
    [top]; the line of rounded top [k] exists exactly when some character
    rounds to [k], and holds those characters, all of them, in page
    order. *)
Theorem lines_grouped_by_rounded_top (chars : list Char.t) :
  let lines := sorted_lines chars in
  StronglySorted (fun a b => a.1 < b.1) lines
  /\ (forall top char_list,
        (top, char_list) ∈ lines
        <-> char_list = line_chars top chars /\ char_list <> [])
  /\ (forall ch, ch ∈ chars ->
        exists char_list,
          (Py.round (Char.top ch), char_list) ∈ lines /\ ch ∈ char_list).
Proof.
  intros lines.
  split; [apply sorted_lines_strict|].
  split; [apply sorted_lines_elem_of|].
  intros ch Hch.
  assert (Hin : ch ∈ line_chars (Py.round (Char.top ch)) chars).
  { unfold line_chars. apply list_elem_of_In, filter_In.
    split; [now apply list_elem_of_In|apply Z.eqb_refl]. }
  exists (line_chars (Py.round (Char.top ch)) chars).
  split; [|exact Hin].
  apply sorted_lines_elem_of. split; [reflexivity|].
  intros E. rewrite E in Hin. now apply elem_of_nil in Hin.
Qed.

(** ** Paragraphs stay in reading order *)

Section SortedFilter.
Context {A : Type} (key : A -> Q) (P : A -> bool).

(** Items that already stand in key order are not reordered. *)
Lemma insert_sorted_filter x l :
  (P x = true -> forall y, y ∈ l -> P y = true -> (key x <= key y)%Q) ->
  List.filter P (Py.insert_sorted Py.Qltb key x l) = List.filter P (x :: l).
Proof.
  induction l as [|y r IH]; intros Hx; [reflexivity|].
  cbn [Py.insert_sorted].
  destruct (Py.Qltb (key y) (key x)) eqn:E; [|reflexivity].
  apply Qltb_true in E. cbn [List.filter] in *.
  rewrite IH by (intros Px z Hz; apply Hx; [exact Px|now right]).
  destruct (P x) eqn:Px, (P y) eqn:Py; try reflexivity.
  exfalso. apply (Qlt_not_le _ _ E). apply Hx; [reflexivity|now left|exact Py].
Qed.

Lemma sorted_filter_in_order l :
  StronglySorted (fun a b => (key a <= key b)%Q) (List.filter P l) ->
  List.filter P (Py.sorted Py.Qltb key l) = List.filter P l.
Proof.
  induction l as [|x l IH]; intros Hs; [reflexivity|].
  cbn [Py.sorted fold_right]. fold (Py.sorted Py.Qltb key l).
  cbn [List.filter] in Hs. rewrite insert_sorted_filter.
  - cbn [List.filter]. destruct (P x); [|now rewrite IH].
    apply StronglySorted_inv in Hs as [Hs _]. now rewrite IH.
  - intros Px y Hy Py. rewrite Px in Hs.
    apply StronglySorted_inv in Hs as [_ Hall].
    rewrite Forall_forall in Hall. apply Hall.
    apply list_elem_of_In, filter_In. split; [|exact Py].
    apply list_elem_of_In in Hy.
    eapply Permutation_in; [apply Permutation_sym, sorted_perm|exact Hy].
Qed.
End SortedFilter.

Lemma StronglySorted_snoc {A} (R : A -> A -> Prop) l y :
  StronglySorted R l -> Forall (fun x => R x y) l -> StronglySorted R (l ++ [y]).
Proof.
  induction 1 as [|x l Hl IH Hx]; intros Hy; simpl.
  - repeat constructor.
  - apply Forall_cons in Hy as [Hxy Hy]. constructor; [now apply IH|].
    apply Forall_app. split; [exact Hx|]. now repeat constructor.
Qed.

Lemma paragraph_tops_app l1 l2 :
  paragraph_tops (l1 ++ l2) = paragraph_tops l1 ++ paragraph_tops l2.
Proof. apply omap_app. Qed.

Lemma paragraph_tops_alter s i l :
  paragraph_tops (alter (Entry.append_text s) i l) = paragraph_tops l.
Proof.
  revert i. induction l as [|e l IH]; intros i; [reflexivity|].
  destruct i as [|i]; cbn.
  - now destruct e.
  - change (list_alter (Entry.append_text s) i l)
      with (alter (Entry.append_text s) i l).
    now rewrite IH.
Qed.

(** One iteration leaves the tops as they are or appends the line's. *)
Section ReadingOrder.
Context `{U : Py.Unicode}.

Lemma process_line_tops st top char_list :
  let tops := paragraph_tops (LoopState.page_content st) in
  let tops' :=
    paragraph_tops (LoopState.page_content (process_line st (top, char_list))) in
  tops' = tops \/ tops' = tops ++ [top].
Proof.
  cbv zeta.
  destruct (Py.truthy (line_text_of char_list)) eqn:Ht.
  2: { left. now rewrite process_line_dropped by now left. }
  destruct (is_header_footer (line_text_of char_list)) eqn:Hh.
  { left. now rewrite process_line_dropped by now right. }
  assert (Hnew : is_number_line (line_text_of char_list) = false
                 \/ LoopState.previous_entry st = None ->
                 paragraph_tops
                   (LoopState.page_content (process_line st (top, char_list)))
                 = paragraph_tops (LoopState.page_content st) ++ [top]).
  { intros Hc. rewrite process_line_new; [|now split|exact Hc].
    cbn [LoopState.page_content]. now rewrite paragraph_tops_app. }
  destruct (is_number_line (line_text_of char_list)) eqn:Hn;
    [|right; apply Hnew; now left].
  destruct (LoopState.previous_entry st) as [i|] eqn:Hp;
    [|right; apply Hnew; now right].
  left. rewrite (process_line_merge st top char_list i Hn Hp).
  cbn [LoopState.page_content]. apply paragraph_tops_alter.
Qed.

Lemma process_lines_tops st lines :
  StronglySorted Z.lt (paragraph_tops (LoopState.page_content st)) ->
  StronglySorted (fun a b => a.1 < b.1) lines ->
  (forall t line, t ∈ paragraph_tops (LoopState.page_content st) ->
                  line ∈ lines -> t < line.1) ->
  let tops := paragraph_tops (LoopState.page_content (process_lines st lines)) in
  StronglySorted Z.lt tops
  /\ forall t, t ∈ tops ->
       t ∈ paragraph_tops (LoopState.page_content st) \/ t ∈ map fst lines.
Proof.
  revert st. induction lines as [|[top char_list] lines IH];
    intros st Hs Hl Hbound; cbv zeta.
  - split; [exact Hs|]. intros t Ht. now left.
  - cbn [process_lines fold_left].
    apply StronglySorted_inv in Hl as [Hl Hfirst].
    rewrite Forall_forall in Hfirst.
    destruct (process_line_tops st top char_list) as [E|E]; cbv zeta in E.
    + destruct (IH (process_line st (top, char_list))) as [H1 H2].
      * now rewrite E.
      * exact Hl.
      * intros t line Ht Hline. rewrite E in Ht.
        apply (Hbound t line Ht). now right.
      * split; [exact H1|]. intros t Ht.
        destruct (H2 t Ht) as [H|H]; [left; now rewrite <- E|].
        right. now right.
    + destruct (IH (process_line st (top, char_list))) as [H1 H2].
      * rewrite E. apply StronglySorted_snoc; [exact Hs|].
        apply Forall_forall. intros t Ht.
        apply (Hbound t (top, char_list) Ht). now left.
      * exact Hl.
      * intros t line Ht Hline. rewrite E in Ht.
        apply elem_of_app in Ht as [Ht|Ht].
        -- apply (Hbound t line Ht). now right.
        -- apply list_elem_of_singleton in Ht. subst t.
           exact (Hfirst line Hline).
      * split; [exact H1|]. intros t Ht.
        destruct (H2 t Ht) as [H|H]; [|right; now right].
        rewrite E in H. apply elem_of_app in H as [H|H]; [now left|].
        apply list_elem_of_singleton in H. subst t. right. now left.
Qed.

Lemma paragraph_tops_filter l :
  paragraph_tops (List.filter is_paragraph l) = paragraph_tops l.
Proof.
  induction l as [|e l IH]; [reflexivity|].
  destruct e; cbn; try exact IH.
  change (omap _ (List.filter is_paragraph l))
    with (paragraph_tops (List.filter is_paragraph l)).
  now rewrite IH.
Qed.

Lemma paragraphs_sorted_by_key l :
  Forall (fun e => Entry.type e = TParagraph) l ->
  StronglySorted Z.lt (paragraph_tops l) ->
  StronglySorted (fun a b => (sort_key a <= sort_key b)%Q) l.
Proof.
  induction 1 as [|e l He Hl IH]; intros Hs; [constructor|].
  destruct e as [p| |]; try discriminate He.
  cbn in Hs. apply StronglySorted_inv in Hs as [Hs Hp].
  constructor; [now apply IH|].
  rewrite Forall_forall in Hp. rewrite Forall_forall in Hl.
  apply Forall_forall. intros e He'.
  specialize (Hl e He'). destruct e as [q| |]; try discriminate Hl.
  unfold sort_key. cbn. rewrite <- Zle_Qle.
  apply Z.lt_le_incl, Hp.
  apply list_elem_of_omap. exists (EParagraph q). now split.
Qed.

Lemma final_tops_sorted page :
  let tops := paragraph_tops (LoopState.page_content (final_state page)) in
  StronglySorted Z.lt tops
  /\ forall t, t ∈ tops ->
       exists char_list, (t, char_list) ∈ sorted_lines (PdfPage.chars page).
Proof.
  destruct (process_lines_tops LoopState.init (sorted_lines (PdfPage.chars page)))
    as [Hsorted Hfrom].
  { constructor. }
  { apply sorted_lines_strict. }
  { intros t line Ht. now apply elem_of_nil in Ht. }
  split; [exact Hsorted|].
  intros t Ht. destruct (Hfrom t Ht) as [H|H]; [now apply elem_of_nil in H|].
  apply list_elem_of_fmap in H as ([t' char_list] & -> & Hin).
  now exists char_list.
Qed.

(** The paragraph entries of a page's content are the loop's list. *)
Lemma page_result_paragraphs w pdf_path page_num page :
  List.filter is_paragraph (Page.content (page_result w pdf_path page_num page))
  = LoopState.page_content (final_state page).
Proof.
  destruct (page_entries_total w pdf_path page_num page) as (tr & grids & E).
  cbv zeta in E. apply parse_page_eq in E.
  unfold page_result, outcome. rewrite E. cbn [snd Page.content].
  set (st := final_state page) in *.
  pose proof (process_lines_invariant LoopState.init
                (sorted_lines (PdfPage.chars page)) loop_invariant_init)
    as [Hall _].
  fold (final_state page) in Hall. fold st in Hall.
  assert (Hfilter : forall tables charts,
            Forall (fun e => Entry.type e = TTable) tables ->
            Forall (fun e => Entry.type e = TChart) charts ->
            List.filter is_paragraph
              (LoopState.page_content st ++ tables ++ charts)
            = LoopState.page_content st).
  { intros tables charts Ht Hc. rewrite !List.filter_app.
    rewrite (filter_all_true is_paragraph (LoopState.page_content st)).
    - rewrite (filter_all_false is_paragraph tables),
        (filter_all_false is_paragraph charts).
      + now rewrite !app_nil_r.
      + eapply Forall_impl; [exact Hc|]. now intros [].
      + eapply Forall_impl; [exact Ht|]. now intros [].
    - eapply Forall_impl; [exact Hall|]. now intros []. }
  rewrite sorted_filter_in_order.
  - apply Hfilter; now apply Forall_map, Forall_true.
  - rewrite Hfilter by now apply Forall_map, Forall_true.
    apply paragraphs_sorted_by_key; [exact Hall|].
    apply (final_tops_sorted page).
Qed.

(** X2: in the content of a page the paragraph entries are the entries
    of the line loop, in the order the loop appended them: their [top]s
    ascend strictly, each is the rounded [top] of a line of the page, and
    the final sort does not reorder them. *)
Theorem paragraphs_in_reading_order w pdf_path page_num page :
  exists tr content,
    parse_page w pdf_path page_num page = (tr, inr (Page.mk page_num content))
    /\ List.filter is_paragraph content = LoopState.page_content (final_state page)
    /\ StronglySorted Z.lt (paragraph_tops content)
    /\ forall t, t ∈ paragraph_tops content ->
         exists char_list, (t, char_list) ∈ sorted_lines (PdfPage.chars page).
Proof.
  destruct (parse_page_total w pdf_path page_num page) as (tr & E & Hn).
  pose proof (page_result_paragraphs w pdf_path page_num page) as Hfilter.
  destruct (page_result w pdf_path page_num page) as [n content].
  cbn in Hn, Hfilter. subst n.
  exists tr, content. split; [exact E|]. split; [exact Hfilter|].
  rewrite <- paragraph_tops_filter, Hfilter.
  apply final_tops_sorted.
Qed.

End ReadingOrder.

(** ** The text of the paragraph entries *)

Section ParagraphTexts.
Context `{U : Py.Unicode}.

Lemma lstrip_starts s : starts_blank (Py.lstrip s) = false.
Proof.
  induction s as [|c s IH]; [reflexivity|]. simpl.
  destruct (Py.isspace_ch c) eqn:E; [exact IH|]. simpl. exact E.
Qed.

Lemma rstrip_ends s : ends_blank (Py.rstrip s) = false.
Proof.
  induction s as [|c s IH]; [reflexivity|]. simpl.
  destruct (Py.rstrip s) as [|d r] eqn:E.
  - destruct (Py.isspace_ch c) eqn:Ec; [reflexivity|]. simpl. exact Ec.
  - exact IH.
Qed.

Lemma rstrip_starts s : starts_blank s = false -> starts_blank (Py.rstrip s) = false.
Proof.
  destruct s as [|c s]; [reflexivity|]. simpl. intros Hc.
  destruct (Py.rstrip s); [now rewrite Hc|exact Hc].
Qed.

Lemma strip_trimmed s : Py.truthy (Py.strip s) = true -> trimmed (Py.strip s).
Proof.
  intros Ht. split; [now destruct (Py.strip s)|]. split.
  - apply rstrip_starts, lstrip_starts.
  - apply rstrip_ends.
Qed.

Lemma starts_blank_append a b :
  a <> [] -> starts_blank (a ++ b) = starts_blank a.
Proof. now destruct a. Qed.

Lemma ends_blank_append a b :
  b <> [] -> ends_blank (a ++ b) = ends_blank b.
Proof.
  intros Hb. induction a as [|c a IH]; [reflexivity|].
  change ((c :: a) ++ b) with (c :: (a ++ b)).
  destruct (a ++ b) eqn:E; [|exact IH].
  apply app_eq_nil in E as [_ ->]. contradiction.
Qed.

(** Merging a trimmed line into a trimmed text gives a trimmed text. *)
Lemma trimmed_merge t line_text :
  trimmed t -> trimmed line_text ->
  trimmed (t ++ lit " " ++ line_text).
Proof.
  intros (Ht & Hs & _) (Hl & _ & He). split; [|split].
  - destruct t; [contradiction|discriminate].
  - now rewrite starts_blank_append.
  - rewrite ends_blank_append by discriminate.
    change (lit " " ++ line_text) with (ord " " :: line_text).
    destruct line_text; [contradiction|exact He].
Qed.

Lemma process_line_trimmed st line :
  loop_invariant st ->
  Forall (fun e => forall p, e = EParagraph p -> trimmed (Paragraph.text p))
         (LoopState.page_content st) ->
  Forall (fun e => forall p, e = EParagraph p -> trimmed (Paragraph.text p))
         (LoopState.page_content (process_line st line)).
Proof.
  intros Hinv Hall. destruct line as [top char_list].
  destruct (Py.truthy (line_text_of char_list)) eqn:Ht.
  2: { now rewrite process_line_dropped by now left. }
  destruct (is_header_footer (line_text_of char_list)) eqn:Hh.
  { now rewrite process_line_dropped by now right. }
  assert (Hline : trimmed (line_text_of char_list)) by now apply strip_trimmed.
  assert (Hnew : is_number_line (line_text_of char_list) = false
                 \/ LoopState.previous_entry st = None ->
                 Forall (fun e => forall p, e = EParagraph p ->
                                            trimmed (Paragraph.text p))
                   (LoopState.page_content (process_line st (top, char_list)))).
  { intros Hc. rewrite process_line_new; [|now split|exact Hc].
    cbn [LoopState.page_content]. apply Forall_app. split; [exact Hall|].
    constructor; [|constructor]. intros p E. now injection E as <-. }
  destruct (is_number_line (line_text_of char_list)) eqn:Hn;
    [|apply Hnew; now left].
  destruct (LoopState.previous_entry st) as [i|] eqn:Hp;
    [|apply Hnew; now right].
  destruct (loop_invariant_last st i Hinv Hp) as (l & p & E & Hl).
  destruct (merge_number_line st top char_list i l p Hn Hp E Hl) as [E' _].
  rewrite E'. rewrite E in Hall. apply Forall_app in Hall as [Hl' Hp'].
  apply Forall_app. split; [exact Hl'|].
  constructor; [|constructor]. intros q Eq. injection Eq as <-.
  cbn. apply trimmed_merge; [|exact Hline].
  rewrite Forall_singleton in Hp'. now apply Hp'.
Qed.

Lemma process_lines_trimmed lines :
  Forall (fun e => forall p, e = EParagraph p -> trimmed (Paragraph.text p))
         (LoopState.page_content (process_lines LoopState.init lines)).
Proof.
  assert (H : forall st,
            loop_invariant st ->
            Forall (fun e => forall p, e = EParagraph p -> trimmed (Paragraph.text p))
                   (LoopState.page_content st) ->
            Forall (fun e => forall p, e = EParagraph p -> trimmed (Paragraph.text p))
                   (LoopState.page_content (process_lines st lines))).
  { induction lines as [|line lines IH]; intros st Hinv Hall; [exact Hall|].
    cbn [process_lines fold_left]. apply IH.
    - now apply process_line_invariant.
    - now apply process_line_trimmed. }
  apply H; [apply loop_invariant_init|constructor].
Qed.

(** X3: every paragraph entry of a page has a text of at least one
    character that neither starts nor ends with a blank, merged number
    lines included. *)
Theorem paragraph_texts_are_trimmed w pdf_path page_num page :
  exists tr content,
    parse_page w pdf_path page_num page = (tr, inr (Page.mk page_num content))
    /\ forall p, EParagraph p ∈ content ->
         Paragraph.text p <> []
         /\ starts_blank (Paragraph.text p) = false
         /\ ends_blank (Paragraph.text p) = false.
Proof.
  destruct (parse_page_total w pdf_path page_num page) as (tr & E & Hn).
  pose proof (page_result_paragraphs w pdf_path page_num page) as Hfilter.
  destruct (page_result w pdf_path page_num page) as [n content].
  cbn in Hn, Hfilter. subst n.
  exists tr, content. split; [exact E|].
  intros p Hp.
  assert (Hin : EParagraph p ∈ LoopState.page_content (final_state page)).
  { rewrite <- Hfilter. apply list_elem_of_In, filter_In.
    split; [now apply list_elem_of_In|reflexivity]. }
  pose proof (process_lines_trimmed (sorted_lines (PdfPage.chars page))) as Hall.
  rewrite Forall_forall in Hall. exact (Hall _ Hin p eq_refl).
Qed.

End ParagraphTexts.

(** ** No text is lost or invented *)

Section TextPreserved.
Context `{U : Py.Unicode}.

Lemma unwords_snoc (l : list str) (y : str) :
  l <> [] ->
  unwords (l ++ [y]) = unwords l ++ lit " " ++ y.
Proof.
  destruct l as [|x l]; [contradiction|]. intros _.
  cbn [unwords app]. now rewrite fold_left_app.
Qed.

Lemma unwords_snoc_merge (l : list str) (t x : str) :
  unwords (l ++ [t ++ lit " " ++ x])
  = (unwords (l ++ [t])) ++ lit " " ++ x.
Proof.
  destruct l as [|a l]; [reflexivity|].
  cbn [unwords app]. rewrite !fold_left_app. cbn [fold_left].
  now rewrite <- !app_assoc.
Qed.

Lemma entry_texts_snoc l p :
  entry_texts (l ++ [EParagraph p]) = entry_texts l ++ [Paragraph.text p].
Proof. unfold entry_texts. now rewrite omap_app. Qed.

Lemma kept_texts_snoc lines line :
  kept_texts (lines ++ [line])
  = kept_texts lines ++ if keeps line then [line_text_of line.2] else [].
Proof.
  unfold kept_texts. rewrite List.filter_app, map_app. cbn [List.filter].
  now destruct (keeps line).
Qed.

Lemma entry_texts_filter l :
  entry_texts (List.filter is_paragraph l) = entry_texts l.
Proof.
  induction l as [|e l IH]; [reflexivity|].
  destruct e; cbn; try exact IH.
  change (omap Entry.text (List.filter is_paragraph l))
    with (entry_texts (List.filter is_paragraph l)).
  now rewrite IH.
Qed.

Lemma process_lines_texts lines :
  let content := LoopState.page_content (process_lines LoopState.init lines) in
  unwords (entry_texts content) = unwords (kept_texts lines)
  /\ (entry_texts content = [] <-> kept_texts lines = []).
Proof.
  induction lines as [|[top char_list] lines IH] using rev_ind; cbv zeta.
  - now split.
  - rewrite process_lines_app. cbn [process_lines fold_left].
    fold (process_lines LoopState.init lines).
    set (st := process_lines LoopState.init lines) in *.
    cbv zeta in IH. destruct IH as [IHeq IHnil].
    pose proof (process_lines_invariant LoopState.init lines loop_invariant_init)
      as Hinv.
    fold st in Hinv.
    rewrite kept_texts_snoc. unfold keeps. cbn [snd].
    destruct (Py.truthy (line_text_of char_list)) eqn:Ht.
    2: { rewrite process_line_dropped by now left.
         cbn. now rewrite app_nil_r. }
    destruct (is_header_footer (line_text_of char_list)) eqn:Hh.
    { rewrite process_line_dropped by now right.
      cbn. now rewrite app_nil_r. }
    cbn [andb negb].
    assert (Hnew : is_number_line (line_text_of char_list) = false
                   \/ LoopState.previous_entry st = None ->
      unwords (entry_texts
                 (LoopState.page_content (process_line st (top, char_list))))
      = unwords (kept_texts lines ++ [line_text_of char_list])
      /\ (entry_texts
            (LoopState.page_content (process_line st (top, char_list))) = []
          <-> kept_texts lines ++ [line_text_of char_list] = [])).
    { intros Hc. rewrite process_line_new; [|now split|exact Hc].
      cbn [LoopState.page_content]. rewrite entry_texts_snoc.
      cbn [Paragraph.text]. split.
      - destruct (entry_texts (LoopState.page_content st)) as [|x l] eqn:E.
        + now rewrite (proj1 IHnil eq_refl).
        + destruct (kept_texts lines) as [|y k] eqn:Ek.
          * now pose proof (proj2 IHnil eq_refl).
          * rewrite !unwords_snoc by discriminate. now rewrite IHeq.
      - split; intros H; now apply app_eq_nil in H as [_ H]. }
    destruct (is_number_line (line_text_of char_list)) eqn:Hn;
      [|apply Hnew; now left].
    destruct (LoopState.previous_entry st) as [i|] eqn:Hp;
      [|apply Hnew; now right].
    destruct (loop_invariant_last st i Hinv Hp) as (l & p & E & Hl).
    destruct (merge_number_line st top char_list i l p Hn Hp E Hl) as [E' _].
    rewrite E'. rewrite E, entry_texts_snoc in IHeq, IHnil.
    rewrite entry_texts_snoc. cbn [with_text Paragraph.text]. split.
    + rewrite unwords_snoc_merge, IHeq. symmetry. apply unwords_snoc.
      intros Hk. apply IHnil in Hk. now apply app_eq_nil in Hk as [_ Hk].
    + split; intros H; now apply app_eq_nil in H as [_ H].
Qed.

(** X4: joined by single spaces, the texts of the paragraph entries of a
    page are the texts of the lines the loop keeps (those neither empty
    nor taken for a header or footer), in line order: merging number
    lines moves text between entries but loses and adds none. *)
Theorem page_text_preserved w pdf_path page_num page :
  exists tr content,
    parse_page w pdf_path page_num page = (tr, inr (Page.mk page_num content))
    /\ unwords (entry_texts content)
       = unwords (kept_texts (sorted_lines (PdfPage.chars page)))
    /\ (entry_texts content = []
        <-> kept_texts (sorted_lines (PdfPage.chars page)) = []).
Proof.
  destruct (parse_page_total w pdf_path page_num page) as (tr & E & Hn).
  pose proof (page_result_paragraphs w pdf_path page_num page) as Hfilter.
  destruct (page_result w pdf_path page_num page) as [n content].
  cbn in Hn, Hfilter. subst n.
  exists tr, content. split; [exact E|].
  rewrite <- entry_texts_filter, Hfilter.
  apply (process_lines_texts (sorted_lines (PdfPage.chars page))).
Qed.

End TextPreserved.

(** ** Entries already appended *)

Section EntriesGrow.
Context `{U : Py.Unicode}.

Lemma process_line_grows st line i e :
  LoopState.page_content st !! i = Some e ->
  exists e' suffix,
    LoopState.page_content (process_line st line) !! i = Some e'
    /\ Entry.type e' = Entry.type e
    /\ Entry.section e' = Entry.section e
    /\ Entry.sub_section e' = Entry.sub_section e
    /\ Entry.top e' = Entry.top e
    /\ Entry.text e' = (fun t => t ++ suffix) <$> Entry.text e.
Proof.
  intros He. destruct line as [top char_list].
  assert (Hsame : exists e' suffix,
            Some e = Some e'
            /\ Entry.type e' = Entry.type e
            /\ Entry.section e' = Entry.section e
            /\ Entry.sub_section e' = Entry.sub_section e
            /\ Entry.top e' = Entry.top e
            /\ Entry.text e' = (fun t => t ++ suffix) <$> Entry.text e).
  { exists e, []. repeat split.
    destruct e; cbn; [|reflexivity|reflexivity].
    now rewrite app_nil_r. }
  destruct (Py.truthy (line_text_of char_list)) eqn:Ht.
  2: { rewrite process_line_dropped by now left. now rewrite He. }
  destruct (is_header_footer (line_text_of char_list)) eqn:Hh.
  { rewrite process_line_dropped by now right. now rewrite He. }
  assert (Hnew : is_number_line (line_text_of char_list) = false
                 \/ LoopState.previous_entry st = None ->
                 LoopState.page_content (process_line st (top, char_list)) !! i
                 = Some e).
  { intros Hc. rewrite process_line_new; [|now split|exact Hc].
    cbn [LoopState.page_content].
    now rewrite lookup_app_l by (eapply lookup_lt_Some; exact He). }
  destruct (is_number_line (line_text_of char_list)) eqn:Hn.
  2: { rewrite Hnew by now left. exact Hsame. }
  destruct (LoopState.previous_entry st) as [j|] eqn:Hp.
  2: { rewrite Hnew by now right. exact Hsame. }
  rewrite (process_line_merge st top char_list j Hn Hp).
  cbn [LoopState.page_content].
  rewrite list_lookup_alter. destruct (decide (j = i)) as [->|Hne].
  - rewrite He.
    exists (Entry.append_text (lit " " ++ line_text_of char_list) e),
      (lit " " ++ line_text_of char_list).
    split; [reflexivity|]. now destruct e.
  - now rewrite He.
Qed.

(** X5: the loop never removes, moves or retypes an entry it has
    appended: whatever lines follow, the entry stays at its place with its
    [type], [section], [sub_section] and [top], and its text can only gain
    a suffix. *)
Theorem entries_only_grow st lines i e :
  LoopState.page_content st !! i = Some e ->
  exists e' suffix,
    LoopState.page_content (process_lines st lines) !! i = Some e'
    /\ Entry.type e' = Entry.type e
    /\ Entry.section e' = Entry.section e
    /\ Entry.sub_section e' = Entry.sub_section e
    /\ Entry.top e' = Entry.top e
    /\ Entry.text e' = (fun t => t ++ suffix) <$> Entry.text e.
Proof.
  revert st e. induction lines as [|line lines IH]; intros st e He.
  - exists e, []. split; [exact He|]. repeat split.
    destruct e; cbn; [|reflexivity|reflexivity].
    now rewrite app_nil_r.
  - destruct (process_line_grows st line i e He)
      as (e1 & s1 & H1 & T1 & S1 & U1 & P1 & X1).
    destruct (IH _ _ H1) as (e2 & s2 & H2 & T2 & S2 & U2 & P2 & X2).
    exists e2, (s1 ++ s2). split; [exact H2|].
    repeat split; try congruence.
    rewrite X2, X1. destruct (Entry.text e); cbn; [|reflexivity].
    now rewrite <- !app_assoc.
Qed.

End EntriesGrow.

Lemma entries_only_grow_witness :
  let U := Py.ascii_only in
  let st := process_lines LoopState.init [(10, chars_of "Total" 10)] in
  let e := EParagraph (Paragraph.mk None None (lit "Total") 10) in
  LoopState.page_content st !! 0%nat = Some e
  /\ exists e' suffix,
       LoopState.page_content
         (process_lines st [(20, chars_of "1 234" 16); (30, chars_of "Next" 10)])
         !! 0%nat = Some e'
       /\ Entry.type e' = Entry.type e
       /\ Entry.section e' = Entry.section e
       /\ Entry.sub_section e' = Entry.sub_section e
       /\ Entry.top e' = Entry.top e
       /\ Entry.text e' = (fun t => t ++ suffix) <$> Entry.text e.
Proof.
  intros U. cbv zeta. split; [reflexivity|].
  exact (entries_only_grow
           (process_lines LoopState.init [(10, chars_of "Total" 10)])
           [(20, chars_of "1 234" 16); (30, chars_of "Next" 10)] 0%nat
           (EParagraph (Paragraph.mk None None (lit "Total") 10)) eq_refl).
Defined.

(** ** More on [deduplicate_charts] *)

Lemma deduplicate_from_fixed seen charts :
  NoDup (map rounded_bbox charts) ->
  (forall c, c ∈ charts -> rounded_bbox c ∉ seen) ->
  deduplicate_from seen charts = charts.
Proof.
  revert seen. induction charts as [|ch rest IH]; intros seen Hnd Hfresh;
    [reflexivity|].
  cbn [deduplicate_from map] in *. apply NoDup_cons in Hnd as [Hnin Hnd].
  rewrite decide_False by (apply Hfresh; now left).
  f_equal. apply IH; [exact Hnd|].
  intros c Hc [Hs|Hs]%elem_of_union.
  - apply elem_of_singleton in Hs. apply Hnin. rewrite <- Hs.
    now apply list_elem_of_fmap_2.
  - apply (Hfresh c); [now right|exact Hs].
Qed.

Lemma deduplicate_from_length seen charts :
  (length (deduplicate_from seen charts) <= length charts)%nat.
Proof.
  revert seen. induction charts as [|ch rest IH]; intros seen; simpl; [lia|].
  destruct (decide (rounded_bbox ch ∈ seen)).
  - specialize (IH seen). lia.
  - specialize (IH ({[rounded_bbox ch]} ∪ seen)). simpl. lia.
Qed.

(** Every candidate has a kept chart with its rounded bounding box. *)
Lemma deduplicate_charts_covers charts ch :
  ch ∈ charts ->
  exists kept,
    kept ∈ deduplicate_charts charts /\ rounded_bbox kept = rounded_bbox ch.
Proof.
  intros Hch.
  pose proof (deduplicate_from_filter ∅ charts (rounded_bbox ch)) as Hf.
  rewrite decide_False in Hf by apply not_elem_of_empty.
  destruct (List.find (same_key (rounded_bbox ch)) charts) as [first|] eqn:E.
  - exists first. split.
    + apply list_elem_of_In.
      apply (proj1 (filter_In (same_key (rounded_bbox ch)) first
                      (deduplicate_charts charts))).
      unfold deduplicate_charts. rewrite Hf. now left.
    + apply find_some in E as [_ E]. now apply bool_decide_eq_true in E.
  - exfalso. apply list_elem_of_In in Hch.
    apply (find_none _ _ E) in Hch. unfold same_key in Hch.
    now rewrite bool_decide_eq_true_2 in Hch.
Qed.

(** X6: [deduplicate_charts] is idempotent; it returns its argument
    unchanged when no two charts share a rounded bounding box, never
    returns more charts than it was given, and always keeps the first
    chart. *)
Theorem deduplicate_charts_idempotent (charts : list Chart.t) :
  deduplicate_charts (deduplicate_charts charts) = deduplicate_charts charts
  /\ (NoDup (map rounded_bbox charts) -> deduplicate_charts charts = charts)
  /\ (length (deduplicate_charts charts) <= length charts)%nat
  /\ head (deduplicate_charts charts) = head charts.
Proof.
  assert (Hfix : forall l, NoDup (map rounded_bbox l) -> deduplicate_charts l = l).
  { intros l Hnd. apply deduplicate_from_fixed; [exact Hnd|].
    intros c _. apply not_elem_of_empty. }
  split; [|split; [|split]].
  - apply Hfix. apply deduplicate_from_NoDup.
  - apply Hfix.
  - apply deduplicate_from_length.
  - destruct charts as [|ch rest]; [reflexivity|].
    unfold deduplicate_charts. cbn [deduplicate_from].
    now rewrite decide_False by apply not_elem_of_empty.
Qed.

(** ** The charts of a page *)

Section PageCharts.
Context `{U : Py.Unicode}.

Lemma page_result_charts w pdf_path page_num page c :
  EChart c ∈ Page.content (page_result w pdf_path page_num page)
  <-> c ∈ page_charts page_num page.
Proof.
  destruct (page_entries_total w pdf_path page_num page) as (tr & grids & E).
  cbv zeta in E. apply parse_page_eq in E.
  unfold page_result, outcome. rewrite E. cbn [snd Page.content].
  rewrite <- (sorted_perm sort_key _).
  pose proof (process_lines_invariant LoopState.init
                (sorted_lines (PdfPage.chars page)) loop_invariant_init)
    as [Hall _].
  fold (final_state page) in Hall.
  rewrite !elem_of_app. split.
  - intros [H|[H|H]].
    + rewrite Forall_forall in Hall. now apply Hall in H.
    + apply list_elem_of_fmap in H as (g & Hg & _). discriminate Hg.
    + apply list_elem_of_fmap in H as (c' & Hc & Hin). now injection Hc as ->.
  - intros H. right. right. now apply list_elem_of_fmap_2.
Qed.

Lemma NoDup_map_inj {A B} (f : A -> B) (l : list A) x y :
  NoDup (map f l) -> x ∈ l -> y ∈ l -> f x = f y -> x = y.
Proof.
  induction l as [|a l IH]; intros Hnd Hx Hy Hxy.
  - now apply elem_of_nil in Hx.
  - cbn [map] in Hnd. apply NoDup_cons in Hnd as [Hnin Hnd].
    apply elem_of_cons in Hx as [->|Hx], Hy as [->|Hy].
    + reflexivity.
    + exfalso. apply Hnin. rewrite Hxy. now apply list_elem_of_fmap_2.
    + exfalso. apply Hnin. rewrite <- Hxy. now apply list_elem_of_fmap_2.
    + now apply IH.
Qed.

(** X7: every image of a page is represented in the page's content by a
    chart entry whose bounding box rounds to the image's; every chart
    entry of the content is the chart of an image of the page (its
    bounding box and [top] are the image's, its description names the
    page, its section fields are the final ones); and no two different
    chart entries of the content have the same rounded bounding box. *)
Theorem charts_come_from_images w pdf_path page_num page :
  let st := final_state page in
  let chart_of :=
    chart_of_image page_num (LoopState.current_section st)
                   (LoopState.current_sub_section st) in
  exists tr content,
    parse_page w pdf_path page_num page = (tr, inr (Page.mk page_num content))
    /\ (forall img, img ∈ PdfPage.images page ->
          exists c, EChart c ∈ content
                    /\ rounded_bbox c = rounded_bbox (chart_of img))
    /\ (forall c, EChart c ∈ content ->
          exists img,
            img ∈ PdfPage.images page
            /\ c = chart_of img
            /\ Chart.bbox c
               = (Image.x0 img, Image.top img, Image.x1 img, Image.bottom img)
            /\ Chart.top c = Image.top img
            /\ Chart.description c
               = lit "Chart or image on page " ++ str_of_Z page_num)
    /\ (forall c1 c2,
          EChart c1 ∈ content -> EChart c2 ∈ content ->
          rounded_bbox c1 = rounded_bbox c2 -> c1 = c2).
Proof.
  intros st chart_of.
  destruct (parse_page_total w pdf_path page_num page) as (tr & E & Hn).
  pose proof (page_result_charts w pdf_path page_num page) as Hcharts.
  destruct (page_result w pdf_path page_num page) as [n content].
  cbn in Hn, Hcharts. subst n.
  exists tr, content. split; [exact E|]. split; [|split].
  - intros img Himg.
    destruct (deduplicate_charts_covers (map chart_of (PdfPage.images page))
                (chart_of img)) as (kept & Hkept & Hkey).
    { now apply list_elem_of_fmap_2. }
    exists kept. split; [|exact Hkey]. now apply Hcharts.
  - intros c Hc. apply Hcharts in Hc.
    unfold page_charts, deduplicate_charts in Hc.
    eapply elem_of_sublist in Hc; [|apply deduplicate_from_sublist].
    apply list_elem_of_fmap in Hc as (img & -> & Himg).
    exists img. now repeat split.
  - intros c1 c2 H1 H2 Hkey. apply Hcharts in H1, H2.
    apply (NoDup_map_inj rounded_bbox (page_charts page_num page));
      try assumption.
    apply deduplicate_from_NoDup.
Qed.

End PageCharts.

(** ** A majority size decides the role *)

Lemma count_occ_two (l : list Z) a b :
  a <> b ->
  (count_occ Z.eq_dec l a + count_occ Z.eq_dec l b <= length l)%nat.
Proof.
  intros Hne. induction l as [|x l IH]; simpl; [lia|].
  destruct (Z.eq_dec x a), (Z.eq_dec x b); lia.
Qed.

(** X8: a rounded size carried by more than half of the characters of a
    line is its dominant size, wherever those characters stand, and
    decides the role: [section] from 14, [sub_section] from 12, else
    [paragraph]. *)
Theorem majority_size_decides_role (chars : list Char.t) (s : Z) :
  (length chars < 2 * count_occ Z.eq_dec (map rounded_size chars) s)%nat ->
  dominant_size chars = Some s
  /\ identify_text_role chars
     = if (14 <=? s)%Z then RoleSection
       else if (12 <=? s)%Z then RoleSubSection
       else RoleParagraph.
Proof.
  intros Hmaj. destruct chars as [|ch chars]; [simpl in Hmaj; lia|].
  destruct (dominant_size_spec ch chars) as (d & Hd & _ & Hmax).
  cbv zeta in Hmax.
  assert (d = s) as ->.
  { destruct (Z.eq_dec d s) as [E|Hne]; [exact E|].
    pose proof (count_occ_two (map rounded_size (ch :: chars)) d s Hne) as H2.
    specialize (Hmax s). rewrite length_map in H2. lia. }
  split; [exact Hd|]. unfold identify_text_role. now rewrite Hd.
Qed.

Lemma majority_size_decides_role_witness :
  let chars := [char_of_size "1" 9; char_of_size "I" 15; char_of_size "n" 15;
                char_of_size "." 10; char_of_size "t" 15] in
  (length chars < 2 * count_occ Z.eq_dec (map rounded_size chars) 15%Z)%nat
  /\ dominant_size chars = Some 15
  /\ identify_text_role chars = RoleSection.
Proof.
  cbv zeta.
  assert (H : (5 < 2 * count_occ Z.eq_dec [9; 15; 15; 10; 15]%Z 15%Z)%nat)
    by (vm_compute; lia).
  split; [exact H|].
  exact (majority_size_decides_role
           [char_of_size "1" 9; char_of_size "I" 15; char_of_size "n" 15;
            char_of_size "." 10; char_of_size "t" 15] 15 H).
Defined.

(** ** The document and the trace of [parse_pdf] *)

Section DocumentTrace.
Context `{U : Py.Unicode}.

Lemma parse_page_trace w pdf_path page_num page :
  pages_read (trace (parse_page w pdf_path page_num page)) = [page_num]
  /\ output_events (trace (parse_page w pdf_path page_num page)) = [].
Proof.
  unfold parse_page, page_entries. rewrite table_entries_eq.
  unfold camelot_trace_of.
  destruct (camelot_tables_of w pdf_path page_num), (World.camelot w);
    now split.
Qed.

Lemma parse_pages_trace w pdf_path i pages :
  pages_read (trace (parse_pages w pdf_path i pages))
  = map (fun k => i + 1 + Z.of_nat k) (seq 0 (length pages))
  /\ output_events (trace (parse_pages w pdf_path i pages)) = [].
Proof.
  revert i. induction pages as [|page pages IH]; intros i; [now split|].
  cbn [parse_pages].
  destruct (parse_page_total w pdf_path (i + 1) page) as (tr & E & _).
  destruct (parse_page_trace w pdf_path (i + 1) page) as [Hr Hw].
  rewrite E in Hr, Hw |- *. cbn [trace fst] in Hr, Hw.
  destruct (IH (i + 1)) as [IHr IHw].
  pose proof (parse_pages_outcome w pdf_path (i + 1) pages) as Hout.
  destruct (parse_pages w pdf_path (i + 1) pages) as [tr' r].
  cbn [outcome snd trace fst] in Hout, IHr, IHw. subst r.
  cbn [bind ret trace fst]. rewrite app_nil_r.
  unfold pages_read, output_events in *.
  rewrite omap_app, List.filter_app, Hr, Hw, IHr, IHw.
  split; [|reflexivity].
  cbn [length seq map app]. f_equal; [lia|].
  rewrite <- seq_shift, map_map. apply map_ext. intros k. lia.
Qed.

(** X9: for a file that exists and that pdfplumber opens, [parse_pdf]
    returns a document with one page per page of the file, in file order:
    the page at index [k] is the result of the page body on the file's
    page [k] and is numbered [k + 1]; the pages are read in that order,
    once each. *)
Theorem document_follows_the_file w pdf_path pages :
  World.path_exists w pdf_path = true ->
  World.pdfplumber_open w pdf_path = inr pages ->
  exists doc,
    outcome (parse_pdf w pdf_path) = inr doc
    /\ length doc = length pages
    /\ (forall k page,
          pages !! k = Some page ->
          exists tr p,
            parse_page w pdf_path (Z.of_nat k + 1) page = (tr, inr p)
            /\ doc !! k = Some p
            /\ Page.page_number p = Z.of_nat k + 1)
    /\ pages_read (trace (parse_pdf w pdf_path))
       = map (fun k => Z.of_nat k + 1) (seq 0 (length pages)).
Proof.
  intros Hex Hopen.
  exists (imap (fun k page => page_result w pdf_path (1 + Z.of_nat k) page) pages).
  split; [now apply parse_pdf_document|].
  split; [apply length_imap|]. split.
  - intros k page Hk.
    destruct (parse_page_total w pdf_path (Z.of_nat k + 1) page) as (tr & E & Hn).
    exists tr, (page_result w pdf_path (Z.of_nat k + 1) page).
    split; [exact E|]. split; [|exact Hn].
    etransitivity; [apply list_lookup_imap|].
    rewrite Hk. cbn. do 2 f_equal. lia.
  - unfold parse_pdf. rewrite Hex, Hopen. cbn [negb bind emit lift].
    destruct (parse_pages_trace w pdf_path 0 pages) as [Hr _].
    destruct (parse_pages w pdf_path 0 pages) as [tr r].
    cbn in Hr |- *. rewrite Hr. apply map_ext. intros k. lia.
Qed.

End DocumentTrace.

Lemma document_follows_the_file_witness :
  let U := Py.ascii_only in
  let blank := PdfPage.mk [] [] [] in
  let w := world_without_camelot [far_image_page; blank] in
  World.path_exists w (lit "a.pdf") = true
  /\ World.pdfplumber_open w (lit "a.pdf") = inr [far_image_page; blank]
  /\ exists doc,
       outcome (parse_pdf w (lit "a.pdf")) = inr doc
       /\ length doc = 2%nat
       /\ pages_read (trace (parse_pdf w (lit "a.pdf"))) = [1; 2].
Proof.
  intros U. cbv zeta. split; [reflexivity|]. split; [reflexivity|].
  destruct (document_follows_the_file
              (world_without_camelot [far_image_page; PdfPage.mk [] [] []])
              (lit "a.pdf") [far_image_page; PdfPage.mk [] [] []] eq_refl eq_refl)
    as (doc & Hdoc & Hlen & _ & Hread).
  exists doc. split; [exact Hdoc|]. split; [exact Hlen|exact Hread].
Defined.

(** ** [main] *)

Section Main.
Context `{U : Py.Unicode}.

Lemma parse_pdf_writes_nothing w pdf_path :
  output_events (trace (parse_pdf w pdf_path)) = [].
Proof.
  unfold parse_pdf. cbn [bind emit].
  destruct (World.path_exists w pdf_path); [|reflexivity].
  cbn [negb bind emit lift].
  destruct (World.pdfplumber_open w pdf_path) as [e|pages]; [reflexivity|].
  destruct (parse_pages_trace w pdf_path 0 pages) as [_ Hw].
  destruct (parse_pages w pdf_path 0 pages) as [tr r].
  cbn in Hw |- *. exact Hw.
Qed.

Lemma error_is_not_confirmation e output_json :
  Some (error_message e)
  <> Some (EvPrint (lit "Extracted content saved to '" ++ output_json ++ lit "'")).
Proof. unfold error_message. cbn. discriminate. Qed.

(** X10: [main] never lets an exception out, and what it does is fixed by
    the environment.  It prints, runs [parse_pdf], which does not touch
    the output, and when [parse_pdf] raised it prints the exception's
    message and leaves the output alone.  Otherwise it opens the output
    for writing; if that raises, it prints the message.  Otherwise it
    hands [json.dump] the document [parse_pdf] returned; if [json.dump]
    raises, it prints the message, and the file, already opened, keeps
    whatever was written to it; only when [json.dump] completed does it
    print the confirmation.  So the run ends with the confirmation
    exactly when the three steps succeeded. *)
Theorem main_output_protocol w input_pdf output_json :
  main w input_pdf output_json
  = (EvPrint (lit "Parsing '" ++ input_pdf ++ lit "'...")
     :: trace (parse_pdf w input_pdf)
     ++ match outcome (parse_pdf w input_pdf) with
        | inl e => [error_message e]
        | inr doc => output_steps w output_json doc
        end,
     inr tt)
  /\ output_events (trace (parse_pdf w input_pdf)) = []
  /\ output_events (trace (main w input_pdf output_json))
     = match outcome (parse_pdf w input_pdf) with
       | inl _ => []
       | inr doc =>
           EvOpenOutput output_json
           :: match World.open_output w output_json with
              | inl _ => []
              | inr _ => [EvJsonDump output_json doc]
              end
       end
  /\ (last (trace (main w input_pdf output_json))
      = Some (EvPrint (lit "Extracted content saved to '" ++ output_json ++ lit "'"))
      <-> exists doc,
            outcome (parse_pdf w input_pdf) = inr doc
            /\ World.open_output w output_json = inr tt
            /\ World.json_dump w output_json doc = inr tt).
Proof.
  pose proof (parse_pdf_writes_nothing w input_pdf) as Hw.
  assert (Hmain : main w input_pdf output_json
    = (EvPrint (lit "Parsing '" ++ input_pdf ++ lit "'...")
       :: trace (parse_pdf w input_pdf)
       ++ match outcome (parse_pdf w input_pdf) with
          | inl e => [error_message e]
          | inr doc => output_steps w output_json doc
          end,
       inr tt)).
  { unfold main, output_steps, error_message.
    destruct (parse_pdf w input_pdf) as [tr [e|doc]]; [reflexivity|].
    cbn [bind emit lift try_except trace outcome fst snd app].
    destruct (World.open_output w output_json) as [e|[]];
      [cbn; now rewrite <- ?app_assoc|].
    destruct (World.json_dump w output_json doc) as [e|[]];
      cbn; now rewrite <- ?app_assoc. }
  split; [exact Hmain|]. split; [exact Hw|].
  rewrite Hmain. cbn [trace fst]. unfold output_events in *.
  destruct (parse_pdf w input_pdf) as [tr [e|doc]];
    cbn [trace outcome fst snd] in *.
  - split.
    + cbn [List.filter is_write]. now rewrite List.filter_app, Hw.
    + rewrite app_comm_cons, last_app_cons. cbn [last]. split.
      * intros H. now apply error_is_not_confirmation in H.
      * now intros (doc & Hdoc & _).
  - split.
    + unfold output_steps, error_message.
      cbn [List.filter is_write]. rewrite List.filter_app, Hw.
      destruct (World.open_output w output_json) as [e|[]]; [reflexivity|].
      now destruct (World.json_dump w output_json doc) as [e|[]].
    + unfold output_steps. rewrite app_comm_cons, last_app_cons.
      destruct (World.open_output w output_json) as [e|[]].
      * cbn [last]. split.
        -- intros H. now apply error_is_not_confirmation in H.
        -- now intros (doc' & _ & Hopen & _).
      * destruct (World.json_dump w output_json doc) as [e|[]] eqn:Hdump;
          cbn [last]; split.
        -- intros H. now apply error_is_not_confirmation in H.
        -- intros (doc' & Hdoc & _ & Hdump').
           injection Hdoc as <-. congruence.
        -- intros _. now exists doc.
        -- reflexivity.
Qed.

End Main.

(** ** Number lines, again *)

Section NumberLinesAgain.
Context `{U : Py.Unicode}.

Lemma any_ch_digit_of_clean text :
  Py.truthy (clean_number_text text) = true ->
  Py.all_ch number_ch text = true ->
  Py.any_ch Py.isdigit_ch text = true.
Proof.
  rewrite clean_number_text_spec. unfold without_separators.
  induction text as [|c text IH]; [discriminate|].
  cbn [filter_ch Py.all_ch Py.any_ch]. intros Ht Hall.
  apply andb_true_iff in Hall as [Hc Hall].
  destruct (Py.isdigit_ch c) eqn:Ed; [reflexivity|]. cbn [orb].
  apply IH; [|exact Hall].
  destruct (negb (is_separator c)) eqn:Es; [|exact Ht].
  exfalso. unfold number_ch in Hc. rewrite Ed, !orb_false_r in Hc.
  unfold is_separator in Es.
  apply negb_true_iff, bool_decide_eq_false in Es. apply Es.
  cbn [map]. rewrite !elem_of_cons.
  repeat (apply orb_true_iff in Hc as [Hc|Hc]);
    apply N.eqb_eq in Hc; tauto.
Qed.

(** X11: a number line holds at least one digit ([str.isdigit] of the
    character) and nothing but digits, spaces, hyphens, periods and
    percent signs.  None of these is an uppercase letter, in ASCII or
    beyond it (no digit of Unicode is), so [str.isupper] is false of a
    number line: it is not empty and never taken for a header or
    footer, and the loop never drops it; its text is merged or becomes
    an entry. *)
Theorem number_lines_are_never_dropped (text : str) :
  is_number_line text = true ->
  Py.any_ch Py.isdigit_ch text = true
  /\ Py.all_ch number_ch text = true
  /\ Py.isupper text = false
  /\ retained text.
Proof.
  intros Hn. pose proof Hn as Hu. rewrite is_number_line_unfold in Hu.
  apply andb_true_iff in Hu as [Ht Hall].
  split; [now apply any_ch_digit_of_clean|]. split; [exact Hall|]. split.
  - unfold Py.isupper. rewrite (all_number_ch_not_upper _ Hall).
    apply andb_false_r.
  - split; [now apply number_line_truthy
           |now apply number_line_not_header_footer].
Qed.

End NumberLinesAgain.

Lemma number_lines_are_never_dropped_witness :
  let U := Py.ascii_only in
  is_number_line (lit "12.5 %") = true
  /\ Py.any_ch Py.isdigit_ch (lit "12.5 %") = true
  /\ Py.all_ch number_ch (lit "12.5 %") = true
  /\ Py.isupper (lit "12.5 %") = false
  /\ retained (lit "12.5 %").
Proof.
  intros U. split; [reflexivity|].
  exact (number_lines_are_never_dropped (lit "12.5 %") eq_refl).
Defined.

Section HeadingFont.
Context `{U : Py.Unicode}.

(** X12: a number line set in a heading font still goes into the last
    entry.  The section slots are updated first, so the line's text
    becomes the current section (and clears the sub-section) for what
    follows, while the entry that receives the text keeps the section
    fields it was appended with. *)
Theorem number_line_in_heading_font lines top char_list i :
  let st := process_lines LoopState.init lines in
  let line_text := line_text_of char_list in
  let st' := process_line st (top, char_list) in
  is_number_line line_text = true ->
  LoopState.previous_entry st = Some i ->
  identify_text_role char_list = RoleSection ->
  LoopState.current_section st' = Some line_text
  /\ LoopState.current_sub_section st' = None
  /\ length (LoopState.page_content st') = length (LoopState.page_content st)
  /\ exists p,
       LoopState.page_content st !! i = Some (EParagraph p)
       /\ LoopState.page_content st' !! i
          = Some (EParagraph
                    (with_text p (Paragraph.text p
                                    ++ lit " " ++ line_text))).
Proof.
  intros st line_text st' Hn Hp Hrole.
  pose proof (process_lines_invariant LoopState.init lines loop_invariant_init)
    as Hinv.
  fold st in Hinv.
  destruct (loop_invariant_last st i Hinv Hp) as (l & p & E & Hl).
  destruct (merge_number_line st top char_list i l p Hn Hp E Hl) as [E' _].
  fold st' line_text in E'.
  assert (Hctx : LoopState.current_section st' = Some line_text
                 /\ LoopState.current_sub_section st' = None).
  { unfold st'. rewrite (process_line_merge st top char_list i Hn Hp).
    fold line_text. rewrite Hrole. now split. }
  destruct Hctx as [Hsec Hsub].
  split; [exact Hsec|]. split; [exact Hsub|]. split.
  - rewrite E', E, !length_app. reflexivity.
  - exists p. rewrite E', E. subst i.
    split; apply list_lookup_middle; reflexivity.
Qed.

End HeadingFont.

Lemma number_line_in_heading_font_witness :
  let U := Py.ascii_only in
  let lines := [(10, chars_of "Intro" 16); (20, chars_of "Total" 10)] in
  let st := process_lines LoopState.init lines in
  let st' := process_line st (30, chars_of "2024" 16) in
  LoopState.previous_entry st = Some 1%nat
  /\ LoopState.current_section st' = Some (lit "2024")
  /\ LoopState.current_sub_section st' = None
  /\ exists p,
       LoopState.page_content st !! 1%nat = Some (EParagraph p)
       /\ LoopState.page_content st' !! 1%nat
          = Some (EParagraph
                    (with_text p (Paragraph.text p ++ lit " 2024"))).
Proof.
  cbv zeta. split; [reflexivity|].
  destruct (number_line_in_heading_font (U := Py.ascii_only)
              [(10, chars_of "Intro" 16); (20, chars_of "Total" 10)]
              30 (chars_of "2024" 16) 1%nat eq_refl eq_refl eq_refl)
    as (Hsec & Hsub & _ & p & H1 & H2).
  split; [exact Hsec|]. split; [exact Hsub|].
  exists p. split; [exact H1|exact H2].
Defined.

(** ** Where section labels come from *)

Section SectionLabels.
Context `{U : Py.Unicode}.

Lemma heading_of_mono role lines line x :
  heading_of role lines x -> heading_of role (lines ++ [line]) x.
Proof.
  intros [->|(ln & Hin & H)]; [now left|].
  right. exists ln. split; [|exact H]. apply elem_of_app. now left.
Qed.

Lemma process_lines_headings lines :
  let st := process_lines LoopState.init lines in
  heading_of RoleSection lines (LoopState.current_section st)
  /\ heading_of RoleSubSection lines (LoopState.current_sub_section st)
  /\ Forall (fun e => heading_of RoleSection lines (Entry.section e)
                      /\ heading_of RoleSubSection lines (Entry.sub_section e))
            (LoopState.page_content st).
Proof.
  induction lines as [|[top char_list] lines IH] using rev_ind; cbv zeta.
  - split; [now left|]. split; [now left|constructor].
  - rewrite process_lines_app. cbn [process_lines fold_left].
    fold (process_lines LoopState.init lines).
    set (st := process_lines LoopState.init lines) in *.
    cbv zeta in IH. destruct IH as (Hsec & Hsub & Hall).
    pose proof (process_lines_invariant LoopState.init lines loop_invariant_init)
      as Hinv.
    fold st in Hinv.
    assert (Hall' :
      Forall (fun e =>
                heading_of RoleSection (lines ++ [(top, char_list)]) (Entry.section e)
                /\ heading_of RoleSubSection (lines ++ [(top, char_list)])
                     (Entry.sub_section e))
             (LoopState.page_content st)).
    { eapply Forall_impl; [exact Hall|]. intros e [H1 H2].
      split; now apply heading_of_mono. }
    apply (heading_of_mono _ _ (top, char_list)) in Hsec, Hsub.
    destruct (Py.truthy (line_text_of char_list)) eqn:Ht.
    2: { now rewrite process_line_dropped by now left. }
    destruct (is_header_footer (line_text_of char_list)) eqn:Hh.
    { now rewrite process_line_dropped by now right. }
    assert (Hkeep : keeps (top, char_list) = true).
    { unfold keeps. cbn [snd]. now rewrite Ht, Hh. }
    set (ctx := track_section (identify_text_role char_list)
                  (line_text_of char_list)
                  (LoopState.current_section st)
                  (LoopState.current_sub_section st)).
    assert (Hctx : heading_of RoleSection (lines ++ [(top, char_list)]) ctx.1
                   /\ heading_of RoleSubSection (lines ++ [(top, char_list)]) ctx.2).
    { assert (Hself : forall role,
                identify_text_role char_list = role ->
                heading_of role (lines ++ [(top, char_list)])
                           (Some (line_text_of char_list))).
      { intros role Hrole. right. exists (top, char_list).
        split; [apply elem_of_app; right; now left|]. now repeat split. }
      unfold ctx.
      destruct (identify_text_role char_list) eqn:Hrole; cbn.
      - split; [now apply Hself|now left].
      - split; [exact Hsec|now apply Hself].
      - now split. }
    assert (Hnew : is_number_line (line_text_of char_list) = false
                   \/ LoopState.previous_entry st = None ->
      let st' := process_line st (top, char_list) in
      heading_of RoleSection (lines ++ [(top, char_list)])
                 (LoopState.current_section st')
      /\ heading_of RoleSubSection (lines ++ [(top, char_list)])
                    (LoopState.current_sub_section st')
      /\ Forall (fun e =>
                   heading_of RoleSection (lines ++ [(top, char_list)])
                              (Entry.section e)
                   /\ heading_of RoleSubSection (lines ++ [(top, char_list)])
                        (Entry.sub_section e))
                (LoopState.page_content st')).
    { intros Hc. cbv zeta. rewrite process_line_new; [|now split|exact Hc].
      fold ctx. cbn. split; [apply Hctx|]. split; [apply Hctx|].
      apply Forall_app. split; [exact Hall'|].
      apply Forall_singleton. exact Hctx. }
    destruct (is_number_line (line_text_of char_list)) eqn:Hn;
      [|apply Hnew; now left].
    destruct (LoopState.previous_entry st) as [i|] eqn:Hp;
      [|apply Hnew; now right].
    destruct (loop_invariant_last st i Hinv Hp) as (l & p & E & Hl).
    destruct (merge_number_line st top char_list i l p Hn Hp E Hl) as [E' _].
    rewrite E'. rewrite (process_line_merge st top char_list i Hn Hp).
    fold ctx. cbn [LoopState.current_section LoopState.current_sub_section].
    split; [apply Hctx|]. split; [apply Hctx|].
    rewrite E in Hall'. apply Forall_app in Hall' as [Hl' Hp'].
    apply Forall_app. split; [exact Hl'|].
    rewrite Forall_singleton in Hp'. apply Forall_singleton. exact Hp'.
Qed.

(** X13: every section label in the content of a page comes from the
    page itself: the [section] of an entry (paragraph, table or chart) is
    [None] or the text of a kept line of the page whose role is
    [section], and its [sub_section] is [None] or the text of a kept line
    whose role is [sub_section]. *)
Theorem section_labels_come_from_headings w pdf_path page_num page :
  let lines := sorted_lines (PdfPage.chars page) in
  exists tr content,
    parse_page w pdf_path page_num page = (tr, inr (Page.mk page_num content))
    /\ forall e, e ∈ content ->
         heading_of RoleSection lines (Entry.section e)
         /\ heading_of RoleSubSection lines (Entry.sub_section e).
Proof.
  intros lines.
  destruct (page_entries_total w pdf_path page_num page) as (tr & grids & E).
  cbv zeta in E. eexists _, _. split; [apply parse_page_eq, E|].
  destruct (process_lines_headings lines) as (Hsec & Hsub & Hall).
  fold (final_state page) in Hsec, Hsub, Hall.
  intros e He. apply list_elem_of_In in He.
  eapply Permutation_in in He; [|apply Permutation_sym, sorted_perm].
  apply list_elem_of_In in He.
  rewrite !elem_of_app in He. destruct He as [He|[He|He]].
  - rewrite Forall_forall in Hall. now apply Hall.
  - apply list_elem_of_fmap in He as (g & -> & _). now split.
  - apply list_elem_of_fmap in He as (c & -> & Hc).
    apply page_charts_context in Hc as [H1 H2].
    cbn [Entry.section Entry.sub_section]. rewrite H1, H2. now split.
Qed.

End SectionLabels.
